(** * convert_pfs: the fingertip sensor router of pr2_fingertip_sensors

    A shallow embedding of [scripts/convert_pfs.py] (class [ConvertPFS]) and
    the properties of its calibration transform, its sensor topology and its
    per-sample dispatch.

    Numbers are Python floats, that is IEEE 754 binary64 values: they are
    modelled by Rocq's primitive floats, so every definition below runs.
    Faults (Python exceptions) are explicit, and publishing appends to an
    output log that survives a fault. *)

From Stdlib Require Import Floats ZArith Lia List String Ascii Bool.
From Stdlib Require Import DecimalString.
Import ListNotations.

Set Warnings "-inexact-float".

Open Scope string_scope.
Open Scope list_scope.

(** ** Python values and faults *)

Inductive exn : Type :=
| KeyError
| IndexError
| ValueError
| ZeroDivisionError
| UnboundLocalError
| TypeError
| AttributeError.

Inductive result (A : Type) : Type :=
| Ok (a : A)
| Raise (e : exn).

Arguments Ok {A} a.
Arguments Raise {A} e.

Definition rbind {A B : Type} (r : result A) (k : A -> result B) : result B :=
  match r with
  | Ok a => k a
  | Raise e => Raise e
  end.

(** A Python dict with string keys, in insertion order. *)
Definition dict (V : Type) : Type := list (string * V).

Fixpoint dict_get {V : Type} (d : dict V) (k : string) : result V :=
  match d with
  | [] => Raise KeyError
  | (k', v) :: d' => if String.eqb k' k then Ok v else dict_get d' k
  end.

Fixpoint dict_set {V : Type} (d : dict V) (k : string) (v : V) : dict V :=
  match d with
  | [] => [(k, v)]
  | (k', v') :: d' =>
      if String.eqb k' k then (k, v) :: d' else (k', v') :: dict_set d' k v
  end.

(** [xs[i]] for a non-negative index. *)
Definition list_get {A : Type} (xs : list A) (i : nat) : result A :=
  match nth_error xs i with
  | Some x => Ok x
  | None => Raise IndexError
  end.

(** [str(i)] for a non-negative integer. *)
Definition str (i : nat) : string := NilEmpty.string_of_uint (Nat.to_uint i).

(** [range(n)]. *)
Definition range (n : nat) : list nat := seq 0 n.

(** ** Float operations as Python performs them *)

Module Py.

Open Scope float_scope.

(** [float(n)] for a small non-negative integer. *)
Definition float_of_nat (n : nat) : float :=
  PrimFloat.of_uint63 (Uint63.of_Z (Z.of_nat n)).

(** [max(x, y)]: the first argument is kept unless the second is strictly
    greater. *)
Definition max (x y : float) : float := if x <? y then y else x.

(** [x / y] on floats faults on a zero divisor. *)
Definition div (x y : float) : result float :=
  if y =? 0 then Raise ZeroDivisionError else Ok (x / y).

(** [math.sqrt] faults on a negative argument (and on nothing else: a NaN
    or a negative zero goes through). *)
Definition sqrt (x : float) : result float :=
  if x <? 0 then Raise ValueError else Ok (PrimFloat.sqrt x).

Definition inf : float := infinity.

End Py.

(** ** Messages *)

Record Time : Type := mkTime { secs : Z; nsecs : Z }.

Record Header : Type := mkHeader {
  seq_id : Z;
  stamp : Time;
  frame_id : string
}.

(** [Header()] *)
Definition Header_new : Header := mkHeader 0 (mkTime 0 0) "".

Definition set_stamp (h : Header) (t : Time) : Header :=
  mkHeader (seq_id h) t (frame_id h).

Definition set_frame_id (h : Header) (s : string) : Header :=
  mkHeader (seq_id h) (stamp h) s.

Record Vector3 : Type := mkVector3 { vx : float; vy : float; vz : float }.

Record Quaternion : Type := mkQuaternion {
  qx : float; qy : float; qz : float; qw : float
}.

Record Imu : Type := mkImu {
  imu_header : Header;
  orientation : Quaternion;
  orientation_covariance : list float;
  angular_velocity : Vector3;
  angular_velocity_covariance : list float;
  linear_acceleration : Vector3;
  linear_acceleration_covariance : list float
}.

Record Wrench : Type := mkWrench { force_of : Vector3; torque_of : Vector3 }.

Record WrenchStamped : Type := mkWrenchStamped {
  wrench_header : Header;
  wrench : Wrench
}.

Definition zero3 : Vector3 := mkVector3 0 0 0.

(** [WrenchStamped()] *)
Definition WrenchStamped_new : WrenchStamped :=
  mkWrenchStamped Header_new (mkWrench zero3 zero3).

Definition set_force_z (w : WrenchStamped) (z : float) : WrenchStamped :=
  mkWrenchStamped (wrench_header w)
    (mkWrench
       (mkVector3 (vx (force_of (wrench w))) (vy (force_of (wrench w))) z)
              (torque_of (wrench w))).

Definition set_wrench_header (w : WrenchStamped) (h : Header) : WrenchStamped :=
  mkWrenchStamped h (wrench w).

Record PointField : Type := mkPointField {
  pf_name : string;
  pf_offset : nat;
  pf_datatype : nat;
  pf_count : nat
}.

Definition FLOAT32 : nat := 7.

(** The cloud built by [pc2.create_cloud(header, fields, points)]: one row,
    one point per column; the packed bytes are kept as the points they
    encode. *)
Record PointCloud2 : Type := mkPointCloud2 {
  cloud_header : Header;
  cloud_height : nat;
  cloud_width : nat;
  cloud_fields : list PointField;
  cloud_points : list (float * float * float)
}.

Definition create_cloud (h : Header) (fs : list PointField)
    (pts : list (float * float * float)) : PointCloud2 :=
  mkPointCloud2 h 1 (List.length pts) fs pts.

(** Modelled from the spec: the message declaration [PR2FingertipSensor.msg]
    is not among the sources. The raw sample is a timestamped record with
    the proximity readings, the force readings and one IMU reading; the
    readings are taken as the binary64 values Python's arithmetic promotes
    them to when they meet the calibration coefficients. *)
Record PR2FingertipSensor : Type := mkPR2FingertipSensor {
  header : Header;
  proximity : list float;
  force : list float;
  imu : Imu
}.

(** What a publisher sends. *)
Inductive message : Type :=
| MFloat32 (data : float)
| MPointCloud2 (c : PointCloud2)
| MWrenchStamped (w : WrenchStamped)
| MImu (m : Imu).

Inductive msg_type : Type := TFloat32 | TPointCloud2 | TWrenchStamped | TImu.

Record Publisher : Type := mkPublisher {
  topic : string;
  pub_type : msg_type;
  queue_size : nat
}.

(** One published message: the topic it went out on and its content at the
    time of the call. *)
Record event : Type := mkEvent { ev_topic : string; ev_msg : message }.

(** ** Output log and faults together *)

Definition M (A : Type) : Type := (list event * result A)%type.

Definition ret {A : Type} (a : A) : M A := ([], Ok a).

Definition bind {A B : Type} (m : M A) (k : A -> M B) : M B :=
  match m with
  | (l, Ok a) => let (l', r) := k a in (l ++ l', r)
  | (l, Raise e) => (l, Raise e)
  end.

Definition lift {A : Type} (r : result A) : M A := ([], r).

(** [p.publish(m)] *)
Definition publish (p : Publisher) (m : message) : M unit :=
  ([mkEvent (topic p) m], Ok tt).

Declare Scope py_scope.
Delimit Scope py_scope with py.
Notation "x <- c ;; k" := (bind c (fun x => k))
  (at level 61, c at next level, right associativity) : py_scope.
Notation "c ;;; k" := (bind c (fun _ => k))
  (at level 61, right associativity) : py_scope.
Notation "x <~ c ;; k" := (rbind c (fun x => k))
  (at level 61, c at next level, right associativity) : py_scope.

(** [for x in xs: s = body(x, s)] *)
Fixpoint for_each {A S : Type} (xs : list A) (body : A -> S -> M S) (s : S)
    : M S :=
  match xs with
  | [] => ret s
  | x :: xs' => bind (body x s) (for_each xs' body)
  end.

(** ** The class ConvertPFS *)

Definition grippers : list string := ["l_gripper"; "r_gripper"].
Definition fingertips : list string := ["l_fingertip"; "r_fingertip"].
Definition parts : list string :=
  ["pfs_a_front"; "pfs_b_top"; "pfs_b_back"; "pfs_b_left"; "pfs_b_right"].
Definition fields : list PointField :=
  [mkPointField "x" 0 FLOAT32 1;
   mkPointField "y" 4 FLOAT32 1;
   mkPointField "z" 8 FLOAT32 1].

(** The calibration table [rospy.get_param('/pfs')]: gripper, fingertip,
    field, then the coefficients by global index, each a float. *)
Definition pfs_params_t : Type := dict (dict (dict (list float))).

(** A slot of [self.pub[gripper][fingertip][part]]: one publisher for a
    board-level kind, a dict of publishers by local index otherwise. *)
Inductive pub_slot : Type :=
| PubOne (p : Publisher)
| PubEach (ps : list (nat * Publisher)).

Definition pub_t : Type := dict (dict (dict (dict pub_slot))).

Record ConvertPFS : Type := mkConvertPFS {
  pfs_params : pfs_params_t;
  pub : pub_t;
  subscribers : list string
}.

Definition sensor_num (part : string) : nat :=
  if String.eqb part "pfs_a_front" then 8 else 4.

Definition sensor_index (part : string) (i : nat) : result nat :=
  if String.eqb part "pfs_a_front" then Ok i
  else if String.eqb part "pfs_b_top" then Ok (8 + i)
  else if String.eqb part "pfs_b_back" then Ok (12 + i)
  else if String.eqb part "pfs_b_left" then Ok (16 + i)
  else if String.eqb part "pfs_b_right" then Ok (20 + i)
  else Raise UnboundLocalError.

(** [self.pfs_params[gripper][fingertip][field][index]] *)
Definition param (ps : pfs_params_t) (gripper fingertip field : string)
    (index : nat) : result float :=
  (dg <~ dict_get ps gripper;;
   df <~ dict_get dg fingertip;;
   l <~ dict_get df field;;
   list_get l index)%py.

(** *** __init__: the publisher registry *)

Definition sensors : list string :=
  ["proximity_distance"; "proximity_cloud"; "wrench"; "force"; "imu"].
Definition msg_types : list msg_type :=
  [TFloat32; TPointCloud2; TWrenchStamped; TWrenchStamped; TImu].

Definition str_in (s : string) (l : list string) : bool :=
  existsb (String.eqb s) l.

Fixpoint idx_get (ps : list (nat * Publisher)) (i : nat) : result Publisher :=
  match ps with
  | [] => Raise KeyError
  | (j, p) :: ps' => if Nat.eqb j i then Ok p else idx_get ps' i
  end.

Fixpoint idx_set (ps : list (nat * Publisher)) (i : nat) (p : Publisher)
    : list (nat * Publisher) :=
  match ps with
  | [] => [(i, p)]
  | (j, q) :: ps' =>
      if Nat.eqb j i then (i, p) :: ps' else (j, q) :: idx_set ps' i p
  end.

(** ['/pfs/{}/{}/{}/{}'.format(gripper, fingertip, part, sensor)] *)
Definition board_topic (gripper fingertip part sensor : string) : string :=
  ("/pfs/" ++ gripper ++ "/" ++ fingertip ++ "/" ++ part ++ "/"
   ++ sensor)%string.

(** ['/pfs/{}/{}/{}/{}/{}'.format(gripper, fingertip, part, sensor, i)] *)
Definition sensor_topic (gripper fingertip part sensor : string) (i : nat)
    : string :=
  ("/pfs/" ++ gripper ++ "/" ++ fingertip ++ "/" ++ part ++ "/" ++ sensor
     ++ "/" ++ str i)%string.

(** The body of the loop over [zip(sensors, msg_types)], on the dict
    [self.pub[gripper][fingertip][part]]. *)
Definition register_sensor (gripper fingertip part : string)
    (d : dict pub_slot) (st : string * msg_type) : dict pub_slot :=
  let (sensor, ty) := st in
  if String.eqb sensor "imu" && negb (String.eqb part "pfs_a_front") then d
  else
    let d1 :=
      if str_in sensor ["imu"; "wrench"] then
        dict_set d sensor
          (PubOne
             (mkPublisher (board_topic gripper fingertip part sensor) ty 1))
      else d in
    if str_in sensor ["proximity_distance"; "proximity_cloud"; "force"] then
      dict_set d1 sensor
        (PubEach
           (fold_left
              (fun ps i =>
                 idx_set ps i
                   (mkPublisher (sensor_topic gripper fingertip part sensor i)
                      ty 1))
              (range (sensor_num part)) []))
    else d1.

Definition register_part (gripper fingertip : string)
    (d : dict (dict pub_slot)) (part : string) : dict (dict pub_slot) :=
  dict_set d part
    (fold_left (register_sensor gripper fingertip part)
       (combine sensors msg_types) []).

Definition register_fingertip (gripper : string)
    (d : dict (dict (dict pub_slot))) (fingertip : string)
    : dict (dict (dict pub_slot)) :=
  dict_set d fingertip (fold_left (register_part gripper fingertip) parts []).

Definition register_gripper (d : pub_t) (gripper : string) : pub_t :=
  dict_set d gripper (fold_left (register_fingertip gripper) fingertips []).

(** ['/pfs/{}/{}'.format(gripper, fingertip)], one subscription each. *)
Definition subscriptions : list string :=
  flat_map
    (fun gripper =>
       map (fun fingertip => ("/pfs/" ++ gripper ++ "/" ++ fingertip)%string)
         fingertips)
    grippers.

(** [ConvertPFS()], with the table [rospy.get_param('/pfs')] returned. *)
Definition init (params : pfs_params_t) : ConvertPFS :=
  mkConvertPFS params (fold_left register_gripper grippers []) subscriptions.

(** [self.pub[gripper][fingertip][part][sensor]] used as a publisher. *)
Definition pub_one (self : ConvertPFS) (gripper fingertip part sensor : string)
    : result Publisher :=
  (dg <~ dict_get (pub self) gripper;;
   df <~ dict_get dg fingertip;;
   dp <~ dict_get df part;;
   slot <~ dict_get dp sensor;;
   match slot with
   | PubOne p => Ok p
   | PubEach _ => Raise AttributeError
   end)%py.

(** [self.pub[gripper][fingertip][part][sensor][i]] *)
Definition pub_each (self : ConvertPFS) (gripper fingertip part sensor : string)
    (i : nat) : result Publisher :=
  (dg <~ dict_get (pub self) gripper;;
   df <~ dict_get dg fingertip;;
   dp <~ dict_get df part;;
   slot <~ dict_get dp sensor;;
   match slot with
   | PubOne _ => Raise TypeError
   | PubEach ps => idx_get ps i
   end)%py.

(** *** The calibration transform and the per-sample dispatch *)

Section Dispatch.

Open Scope float_scope.
Open Scope py_scope.

Variable self : ConvertPFS.

Definition proximity_to_distance (proximity : float)
    (gripper fingertip part : string) (i : nat) : result float :=
  index <~ sensor_index part i;;
  a <~ param (pfs_params self) gripper fingertip "proximity_a" index;;
  b <~ param (pfs_params self) gripper fingertip "proximity_b" index;;
  if a =? 0 then Ok Py.inf
  else
    q <~ Py.div a (Py.max 0.1 (proximity - b));;
    Py.sqrt q.

(** The body of the loop over [range(sensor_num)] in [publish_proximity];
    the local [header] is the loop's state. *)
Definition proximity_step (msg : PR2FingertipSensor)
    (gripper fingertip part frame_id_base : string) (i : nat) (hd : Header)
    : M Header :=
  let hd := set_frame_id hd (frame_id_base ++ "_" ++ str i)%string in
  index <- lift (sensor_index part i);;
  raw <- lift (list_get (proximity msg) index);;
  distance <- lift (proximity_to_distance raw gripper fingertip part i);;
  if distance <? 0.1 then
    let dist_msg := MFloat32 distance in
    p <- lift (pub_each self gripper fingertip part "proximity_distance" i);;
    publish p dist_msg;;;
    let point := (0, 0, distance) in
    let prox_msg := create_cloud hd fields [point] in
    p' <- lift (pub_each self gripper fingertip part "proximity_cloud" i);;
    publish p' (MPointCloud2 prox_msg);;;
    ret hd
  else ret hd.

Definition publish_proximity (msg : PR2FingertipSensor)
    (gripper fingertip : string) : M unit :=
  let hd := set_stamp Header_new (stamp (header msg)) in
  for_each parts
    (fun part hd =>
       let frame_id_base :=
         ("/" ++ gripper ++ "_" ++ fingertip ++ "_" ++ part)%string in
       let sensor_num := sensor_num part in
       for_each (range sensor_num)
         (proximity_step msg gripper fingertip part frame_id_base) hd)
    hd;;;
  ret tt.

(** The body of the loop over [range(sensor_num)] in [publish_force]; the
    locals [header] and [average_force] are the loop's state. *)
Definition force_step (msg : PR2FingertipSensor)
    (gripper fingertip part frame_id_base : string) (sensor_num : nat)
    (i : nat) (st : Header * float) : M (Header * float) :=
  let (hd, average_force) := st in
  index <- lift (sensor_index part i);;
  let frame_id := (frame_id_base ++ "_" ++ str i)%string in
  preload <- lift (param (pfs_params self) gripper fingertip "preload" index);;
  sensitivity <-
    lift (param (pfs_params self) gripper fingertip "sensitivity" index);;
  raw <- lift (list_get (force msg) index);;
  force <- lift (Py.div (0.105 * (raw - preload)) sensitivity);;
  let force_msg := WrenchStamped_new in
  let hd := set_frame_id hd frame_id in
  let force_msg := set_wrench_header force_msg hd in
  let force_msg := set_force_z force_msg force in
  p <- lift (pub_each self gripper fingertip part "force" i);;
  publish p (MWrenchStamped force_msg);;;
  share <- lift (Py.div force (Py.float_of_nat sensor_num));;
  ret (hd, average_force + share).

Definition publish_force (msg : PR2FingertipSensor)
    (gripper fingertip : string) : M unit :=
  let hd := set_stamp Header_new (stamp (header msg)) in
  for_each parts
    (fun part hd =>
       let frame_id_base :=
         ("/" ++ gripper ++ "_" ++ fingertip ++ "_" ++ part)%string in
       let sensor_num := sensor_num part in
       let average_force := 0.0 in
       st <- for_each (range sensor_num)
               (force_step msg gripper fingertip part frame_id_base sensor_num)
               (hd, average_force);;
       let (hd, average_force) := st : Header * float in
       let board_force_msg := WrenchStamped_new in
       let hd := set_frame_id hd frame_id_base in
       let board_force_msg := set_wrench_header board_force_msg hd in
       let board_force_msg := set_force_z board_force_msg average_force in
       p <- lift (pub_one self gripper fingertip part "wrench");;
       publish p (MWrenchStamped board_force_msg);;;
       ret hd)
    hd;;;
  ret tt.

(** In-place writes to the vectors of [msg.imu]. *)
Definition set_gyro (msg : PR2FingertipSensor) (v : Vector3)
    : PR2FingertipSensor :=
  let m := imu msg in
  mkPR2FingertipSensor (header msg) (proximity msg) (force msg)
    (mkImu (imu_header m) (orientation m) (orientation_covariance m)
       v (angular_velocity_covariance m)
       (linear_acceleration m) (linear_acceleration_covariance m)).

Definition set_acc (msg : PR2FingertipSensor) (v : Vector3)
    : PR2FingertipSensor :=
  let m := imu msg in
  mkPR2FingertipSensor (header msg) (proximity msg) (force msg)
    (mkImu (imu_header m) (orientation m) (orientation_covariance m)
       (angular_velocity m) (angular_velocity_covariance m)
       v (linear_acceleration_covariance m)).

Definition gyro_of (msg : PR2FingertipSensor) : Vector3 :=
  angular_velocity (imu msg).
Definition acc_of (msg : PR2FingertipSensor) : Vector3 :=
  linear_acceleration (imu msg).

(** [imu], [gyro] and [acc] are aliases of the objects inside [msg], so
    every read sees the writes before it; the message is returned in the
    state the caller finds it in afterwards. *)
Definition publish_imu (msg : PR2FingertipSensor)
    (gripper fingertip : string) : M PR2FingertipSensor :=
  let gyro_scale := 0.001 in
  let msg :=
    set_gyro msg (mkVector3 (vx (gyro_of msg) * gyro_scale)
                    (vy (gyro_of msg)) (vz (gyro_of msg))) in
  let msg :=
    set_gyro msg (mkVector3 (vx (gyro_of msg))
                    (vy (gyro_of msg) * gyro_scale) (vz (gyro_of msg))) in
  let msg :=
    set_gyro msg (mkVector3 (vx (gyro_of msg)) (vy (gyro_of msg))
                    (vz (gyro_of msg) * gyro_scale)) in
  let acc_scale := 0.001 in
  let msg :=
    set_acc msg (mkVector3 (vx (acc_of msg) * acc_scale)
                   (vy (acc_of msg)) (vz (acc_of msg))) in
  let msg :=
    set_acc msg (mkVector3 (vx (acc_of msg))
                   (vy (acc_of msg) * acc_scale) (vz (acc_of msg))) in
  let msg :=
    set_acc msg (mkVector3 (vx (acc_of msg)) (vy (acc_of msg))
                   (vz (acc_of msg) * acc_scale)) in
  p <- lift (pub_one self gripper fingertip "pfs_a_front" "imu");;
  publish p (MImu (imu msg));;;
  ret msg.

(** The subscriber callback, with [args = (gripper, fingertip)]; it
    returns the message object as the call leaves it. *)
Definition cb (msg : PR2FingertipSensor) (args : string * string)
    : M PR2FingertipSensor :=
  let gripper := fst args in
  let fingertip := snd args in
  publish_proximity msg gripper fingertip;;;
  publish_force msg gripper fingertip;;;
  publish_imu msg gripper fingertip.

End Dispatch.

(** ** Sample data

    A calibration table and raw samples on which the statements below are
    run. *)

Module Sample.

Open Scope float_scope.

Definition uniform (x : float) : list float := repeat x 24.

Definition coefficients (a b preload sensitivity : float)
    : dict (list float) :=
  [("proximity_a", uniform a); ("proximity_b", uniform b);
   ("preload", uniform preload); ("sensitivity", uniform sensitivity)].

(** Every sensor calibrated with a = 0.01, b = 5, preload = 500 and
    sensitivity = 3.7, but for the right fingertip of the right gripper,
    whose proximity sensors are not calibrated (a = 0). *)
Definition params : pfs_params_t :=
  [("l_gripper", [("l_fingertip", coefficients 0.01 5 500 3.7);
                  ("r_fingertip", coefficients 0.01 5 500 3.7)]);
   ("r_gripper", [("l_fingertip", coefficients 0.01 5 500 3.7);
                  ("r_fingertip", coefficients 0 5 500 3.7)])].

Definition node : ConvertPFS := init params.

Definition imu_reading : Imu :=
  mkImu (mkHeader 0 (mkTime 7 0) "imu") (mkQuaternion 0 0 0 1) []
    (mkVector3 1000 2000 3000) [] (mkVector3 100 200 300) [].

(** Stamped 5 s; proximity reading 10 on the first front sensor and 0
    elsewhere; force reading 2000 everywhere; the IMU reading carries a
    header of its own, stamped 7 s. *)
Definition msg : PR2FingertipSensor :=
  mkPR2FingertipSensor (mkHeader 3 (mkTime 5 0) "pfs")
    (10 :: repeat 0 23) (uniform 2000) imu_reading.

(** The callback on that sample, for the left fingertip of the left
    gripper. *)
Definition run : M PR2FingertipSensor :=
  cb node msg ("l_gripper", "l_fingertip").

Definition log : list event := fst run.

End Sample.

(** ** What a sample is expected to put out

    The messages of one sample, written down sensor by sensor; the
    properties below relate the log of the callback to them. *)

Section Outputs.

Open Scope float_scope.

Variable params : pfs_params_t.
Variable msg : PR2FingertipSensor.
Variables gripper fingertip : string.

Definition on_topic (t : string) (e : event) : bool :=
  String.eqb (ev_topic e) t.

Definition is_imu (e : event) : bool :=
  match ev_msg e with
  | MImu _ => true
  | _ => false
  end.

(** The frame ids of a board and of one of its sensors. *)
Definition board_frame (part : string) : string :=
  ("/" ++ gripper ++ "_" ++ fingertip ++ "_" ++ part)%string.
Definition sensor_frame (part : string) (i : nat) : string :=
  (board_frame part ++ "_" ++ str i)%string.

(** A fresh header stamped with the sample's time. *)
Definition sample_header (frame : string) : Header :=
  mkHeader 0 (stamp (header msg)) frame.

(** What the loops keep of their local [header]: the sequence number and
    the stamp it was created with. *)
Definition header_inv (hd : Header) : Prop :=
  seq_id hd = 0%Z /\ stamp hd = stamp (header msg).

Definition z_wrench (hd : Header) (z : float) : WrenchStamped :=
  mkWrenchStamped hd (mkWrench (mkVector3 0 0 z) (mkVector3 0 0 0)).

Definition distance_event (part : string) (i : nat) (d : float) : event :=
  mkEvent (sensor_topic gripper fingertip part "proximity_distance" i)
    (MFloat32 d).

Definition cloud_event (part : string) (i : nat) (d : float) : event :=
  mkEvent (sensor_topic gripper fingertip part "proximity_cloud" i)
    (MPointCloud2
       (create_cloud (sample_header (sensor_frame part i)) fields
          [(0, 0, d)])).

Definition force_event (part : string) (i : nat) (z : float) : event :=
  mkEvent (sensor_topic gripper fingertip part "force" i)
    (MWrenchStamped (z_wrench (sample_header (sensor_frame part i)) z)).

Definition board_event (part : string) (z : float) : event :=
  mkEvent (board_topic gripper fingertip part "wrench")
    (MWrenchStamped (z_wrench (sample_header (board_frame part)) z)).

Definition imu_event (m : Imu) : event :=
  mkEvent (board_topic gripper fingertip "pfs_a_front" "imu") (MImu m).

(** The distance computed for sensor [i] of a board. *)
Definition distance_at (part : string) (i : nat) : result float :=
  (index <~ sensor_index part i;;
   raw <~ list_get (proximity msg) index;;
   proximity_to_distance (init params) raw gripper fingertip part i)%py.

(** The force computed for sensor [i] of a board. *)
Definition force_at (part : string) (i : nat) : result float :=
  (index <~ sensor_index part i;;
   preload <~ param params gripper fingertip "preload" index;;
   sensitivity <~ param params gripper fingertip "sensitivity" index;;
   raw <~ list_get (force msg) index;;
   Py.div (0.105 * (raw - preload)) sensitivity)%py.

Definition value_or_zero (r : result float) : float :=
  match r with
  | Ok z => z
  | Raise _ => 0
  end.

Definition proximity_events (part : string) (i : nat) : list event :=
  match distance_at part i with
  | Ok d =>
      if d <? 0.1 then [distance_event part i d; cloud_event part i d]
      else []
  | Raise _ => []
  end.

Definition force_events (part : string) (i : nat) : list event :=
  [force_event part i (value_or_zero (force_at part i))].

(** The running average as the loop builds it: each force is divided by
    the sensor count and added to the sum so far, which starts at 0.0. *)
Definition average (n : nat) (zs : list float) : float :=
  fold_left (fun acc z => acc + z / Py.float_of_nat n) zs 0.

Definition board_forces (part : string) : list float :=
  map (fun i => value_or_zero (force_at part i)) (range (sensor_num part)).

Definition board_events (part : string) : list event :=
  flat_map (force_events part) (range (sensor_num part))
  ++ [board_event part (average (sensor_num part) (board_forces part))].

(** What the inner loop of [publish_force] keeps of its locals [header]
    and [average_force] once the sensors [done] are handled. *)
Definition force_inv (part : string) (done : list nat)
    (st : Header * float) : Prop :=
  header_inv (fst st)
  /\ snd st
     = average (sensor_num part)
         (map (fun i => value_or_zero (force_at part i)) done)
  /\ Forall (fun i => exists z, force_at part i = Ok z) done.

(** The topics of one board's force outputs. *)
Definition board_force_topics (part : string) : list string :=
  map (sensor_topic gripper fingertip part "force") (range (sensor_num part))
  ++ [board_topic gripper fingertip part "wrench"].

Definition on_board_force (part : string) (e : event) : bool :=
  str_in (ev_topic e) (board_force_topics part).

(** The IMU reading with both vectors scaled by 0.001. *)
Definition scale3 (v : Vector3) : Vector3 :=
  mkVector3 (vx v * 0.001) (vy v * 0.001) (vz v * 0.001).

Definition scaled_imu (m : Imu) : Imu :=
  mkImu (imu_header m) (orientation m) (orientation_covariance m)
    (scale3 (angular_velocity m)) (angular_velocity_covariance m)
    (scale3 (linear_acceleration m)) (linear_acceleration_covariance m).

(** The sample as [publish_imu] leaves it. *)
Definition scaled_msg : PR2FingertipSensor :=
  mkPR2FingertipSensor (header msg) (proximity msg) (force msg)
    (scaled_imu (imu msg)).

(** The whole log of a sample that is processed to the end. *)
Definition proximity_log : list event :=
  flat_map
    (fun part => flat_map (proximity_events part) (range (sensor_num part)))
    parts.

Definition force_log : list event := flat_map board_events parts.

Definition sample_log : list event :=
  proximity_log ++ force_log ++ [imu_event (scaled_imu (imu msg))].

End Outputs.

(** The timestamp a message carries, if its type has a header at all. *)
Definition stamp_of (m : message) : option Time :=
  match m with
  | MFloat32 _ => None
  | MPointCloud2 c => Some (stamp (cloud_header c))
  | MWrenchStamped w => Some (stamp (wrench_header w))
  | MImu m => Some (stamp (imu_header m))
  end.

(** What each kind of message carries of the sample it comes from: a cloud
    and a wrench carry the stamp of the sample's header, the IMU message
    carries the header of the sample's IMU reading, a distance carries no
    header. *)
Definition carries (msg : PR2FingertipSensor) (e : event) : Prop :=
  match ev_msg e with
  | MFloat32 _ => stamp_of (ev_msg e) = None
  | MPointCloud2 c => stamp (cloud_header c) = stamp (header msg)
  | MWrenchStamped w => stamp (wrench_header w) = stamp (header msg)
  | MImu m => imu_header m = imu_header (imu msg)
  end.

(** ** The registry, flattened

    Every publisher of [self.pub] with the keys it is stored under. *)

Record channel : Type := mkChannel {
  ch_gripper : string;
  ch_fingertip : string;
  ch_part : string;
  ch_sensor : string;
  ch_index : option nat;
  ch_pub : Publisher
}.

Definition slot_channels (g f p s : string) (slot : pub_slot) : list channel :=
  match slot with
  | PubOne pb => [mkChannel g f p s None pb]
  | PubEach ps => map (fun ip => mkChannel g f p s (Some (fst ip)) (snd ip)) ps
  end.

Definition channels (registry : pub_t) : list channel :=
  flat_map (fun gd =>
    flat_map (fun fd =>
      flat_map (fun pd =>
        flat_map (fun sd =>
          slot_channels (fst gd) (fst fd) (fst pd) (fst sd) (snd sd))
          (snd pd))
        (snd fd))
      (snd gd))
    registry.

(** The form of a channel name, checked on one channel. *)
Definition channel_ok (c : channel) : bool :=
  str_in (ch_gripper c) grippers
  && str_in (ch_fingertip c) fingertips
  && str_in (ch_part c) parts
  && match ch_index c with
     | None =>
         str_in (ch_sensor c) ["wrench"; "imu"]
         && String.eqb (topic (ch_pub c))
              ("/pfs/" ++ ch_gripper c ++ "/" ++ ch_fingertip c ++ "/"
               ++ ch_part c ++ "/" ++ ch_sensor c)%string
         && (negb (String.eqb (ch_sensor c) "imu")
             || String.eqb (ch_part c) "pfs_a_front")
     | Some i =>
         str_in (ch_sensor c) ["proximity_distance"; "proximity_cloud"; "force"]
         && Nat.ltb i (sensor_num (ch_part c))
         && String.eqb (topic (ch_pub c))
              ("/pfs/" ++ ch_gripper c ++ "/" ++ ch_fingertip c ++ "/"
               ++ ch_part c ++ "/" ++ ch_sensor c ++ "/" ++ str i)%string
     end.

(** The same form as a proposition. *)
Definition channel_form (c : channel) : Prop :=
  In (ch_gripper c) grippers
  /\ In (ch_fingertip c) fingertips
  /\ In (ch_part c) parts
  /\ match ch_index c with
     | None =>
         (ch_sensor c = "wrench" \/ ch_sensor c = "imu")
         /\ topic (ch_pub c) =
              ("/pfs/" ++ ch_gripper c ++ "/" ++ ch_fingertip c ++ "/"
               ++ ch_part c ++ "/" ++ ch_sensor c)%string
         /\ (ch_sensor c = "imu" -> ch_part c = "pfs_a_front")
     | Some i =>
         (ch_sensor c = "proximity_distance"
          \/ ch_sensor c = "proximity_cloud" \/ ch_sensor c = "force")
         /\ i < sensor_num (ch_part c)
         /\ topic (ch_pub c) =
              ("/pfs/" ++ ch_gripper c ++ "/" ++ ch_fingertip c ++ "/"
               ++ ch_part c ++ "/" ++ ch_sensor c ++ "/" ++ str i)%string
     end.

(** ** Channel keys

    A channel of one fingertip is known by its board, its kind and, for a
    per-sensor kind, its local index. *)

Definition channel_key : Type := (string * string * option nat)%type.

Definition key_eqb (k k' : channel_key) : bool :=
  let '(p, s, oi) := k in
  let '(p', s', oi') := k' in
  String.eqb p p' && String.eqb s s'
  && match oi, oi' with
     | Some i, Some i' => Nat.eqb i i'
     | None, None => true
     | _, _ => false
     end.

(** The topic name past [/pfs/<gripper>/<fingertip>/]. *)
Definition key_suffix (k : channel_key) : string :=
  let '(p, s, oi) := k in
  match oi with
  | Some i => (p ++ "/" ++ s ++ "/" ++ str i)%string
  | None => (p ++ "/" ++ s)%string
  end.

Definition key_topic (gripper fingertip : string) (k : channel_key) : string :=
  let '(p, s, oi) := k in
  match oi with
  | Some i => sensor_topic gripper fingertip p s i
  | None => board_topic gripper fingertip p s
  end.

Definition per_sensor_kinds : list string :=
  ["proximity_distance"; "proximity_cloud"; "force"].

Definition all_keys : list channel_key :=
  flat_map
    (fun p =>
       flat_map
         (fun s => map (fun i => (p, s, Some i)) (range (sensor_num p)))
         per_sensor_kinds
       ++ [(p, "wrench", None); (p, "imu", None)])
    parts.

(** The keys of one board's force outputs: its sensors' wrenches, then its
    own. *)
Definition board_force_keys (part : string) : list channel_key :=
  map (fun i => (part, "force", Some i)) (range (sensor_num part))
  ++ [(part, "wrench", None)].

(** ** Further vocabulary *)

(** The type of a message. *)
Definition type_of (m : message) : msg_type :=
  match m with
  | MFloat32 _ => TFloat32
  | MPointCloud2 _ => TPointCloud2
  | MWrenchStamped _ => TWrenchStamped
  | MImu _ => TImu
  end.

(** The message type that [zip(sensors, msg_types)] pairs with a kind. *)
Definition sensor_type (s : string) : option msg_type :=
  option_map snd
    (find (fun st => String.eqb (fst st) s) (combine sensors msg_types)).

(** The topics of all the publishers of a registry. *)
Definition topics (registry : pub_t) : list string :=
  map (fun c => topic (ch_pub c)) (channels registry).

(** No string occurs twice. *)
Fixpoint nodupb (l : list string) : bool :=
  match l with
  | [] => true
  | x :: l' => negb (str_in x l') && nodupb l'
  end.

(** [self.pfs_params[gripper][fingertip][field]], the whole array. *)
Definition field_of (ps : pfs_params_t) (gripper fingertip field : string)
    : result (list float) :=
  (dg <~ dict_get ps gripper;;
   df <~ dict_get dg fingertip;;
   dict_get df field)%py.

Definition msg_type_eqb (t t' : msg_type) : bool :=
  match t, t' with
  | TFloat32, TFloat32 | TPointCloud2, TPointCloud2
  | TWrenchStamped, TWrenchStamped | TImu, TImu => true
  | _, _ => false
  end.

(** A message went out through a publisher that the registry keeps for the
    given gripper and fingertip, under a kind whose message type is the
    type of the message. *)
Definition sent_on (registry : pub_t) (g f : string) (e : event) : Prop :=
  exists c,
    In c (channels registry)
    /\ ch_gripper c = g /\ ch_fingertip c = f
    /\ topic (ch_pub c) = ev_topic e
    /\ sensor_type (ch_sensor c) = Some (type_of (ev_msg e)).


Definition is_proximity (e : event) : bool :=
  match ev_msg e with
  | MFloat32 _ | MPointCloud2 _ => true
  | _ => false
  end.

Definition is_distance (e : event) : bool :=
  match ev_msg e with
  | MFloat32 _ => true
  | _ => false
  end.

Definition is_cloud (e : event) : bool :=
  match ev_msg e with
  | MPointCloud2 _ => true
  | _ => false
  end.

Definition is_wrench (e : event) : bool :=
  match ev_msg e with
  | MWrenchStamped _ => true
  | _ => false
  end.

(** A stretch of the log that holds [k] distances, [k] clouds and nothing
    else. *)
Definition paired (l : list event) (k : nat) : Prop :=
  List.length l = 2 * k
  /\ List.length (filter is_distance l) = k
  /\ List.length (filter is_cloud l) = k
  /\ forallb is_proximity l = true.

(** [self.pfs_params[gripper][fingertip]], the calibration of one
    fingertip. *)
Definition calibration_of (ps : pfs_params_t) (gripper fingertip : string)
    : result (dict (list float)) :=
  (dg <~ dict_get ps gripper;; dict_get dg fingertip)%py.

(** * Properties *)

(** ** Floats *)

Section FloatFacts.

Open Scope float_scope.

Lemma ltb_leb (x y : float) : (x <? y) = true -> (x <=? y) = true.
Proof.
  rewrite FloatAxioms.ltb_spec, FloatAxioms.leb_spec. unfold SFltb, SFleb.
  destruct (SFcompare _ _) as [[ | | ] | ]; congruence.
Qed.

(** The clamp of the distance model is a floor: whatever the second
    argument, a NaN included. *)
Lemma max_floor (x : float) : (0.1 <=? Py.max 0.1 x) = true.
Proof.
  unfold Py.max. destruct (0.1 <? x) eqn:E.
  - now apply ltb_leb.
  - reflexivity.
Qed.

(** A float at or above the floor is a positive number or +infinity. *)
Lemma above_floor_shape (d : float) :
  (0.1 <=? d) = true ->
  Prim2SF d = S754_infinity false
  \/ exists m e, Prim2SF d = S754_finite false m e.
Proof.
  rewrite FloatAxioms.leb_spec. unfold SFleb.
  change (Prim2SF 0.1) with (S754_finite false 7205759403792794 (-56)).
  destruct (Prim2SF d) as [ s | s | | s m e ]; cbn.
  - discriminate.
  - destruct s; [ discriminate | now left ].
  - discriminate.
  - destruct s; [ discriminate | right; eauto ].
Qed.

Lemma above_floor_nonzero (d : float) :
  (0.1 <=? d) = true -> (d =? 0) = false.
Proof.
  intros H. rewrite FloatAxioms.eqb_spec. unfold SFeqb.
  change (Prim2SF 0) with (S754_zero false).
  destruct (above_floor_shape d H) as [-> | (m & e & ->)]; reflexivity.
Qed.

(** A non-zero float at or above zero is a positive number or +infinity. *)
Lemma positive_shape (a : float) :
  (a =? 0) = false -> (0 <=? a) = true ->
  Prim2SF a = S754_infinity false
  \/ exists m e, Prim2SF a = S754_finite false m e.
Proof.
  rewrite FloatAxioms.eqb_spec, FloatAxioms.leb_spec. unfold SFeqb, SFleb.
  change (Prim2SF 0) with (S754_zero false).
  destruct (Prim2SF a) as [ s | s | | s m e ]; cbn.
  - discriminate.
  - destruct s; [ discriminate | now left ].
  - discriminate.
  - destruct s; [ discriminate | right; eauto ].
Qed.

(** Rounding keeps the sign it is given, or yields a NaN. *)
Lemma binary_round_aux_sign (s : bool) (m e : Z) (l : location) :
  let r := binary_round_aux prec emax s m e l in
  r = S754_zero s \/ r = S754_infinity s \/ r = S754_nan
  \/ exists m' e', r = S754_finite s m' e'.
Proof.
  unfold binary_round_aux.
  destruct (shr_fexp prec emax m e l) as [mrs' e'].
  destruct (shr_fexp prec emax _ e' loc_Exact) as [mrs'' e''].
  destruct (shr_m mrs'') as [ | p | p ]; cbn; auto.
  destruct (Z.leb e'' _); eauto 6.
Qed.

(** A positive numerator over a denominator at or above the floor is
    never below zero. *)
Lemma quotient_not_negative (a d : float) :
  (a =? 0) = false -> (0 <=? a) = true -> (0.1 <=? d) = true ->
  (a / d <? 0) = false.
Proof.
  intros Ha0 Ha Hd.
  rewrite FloatAxioms.ltb_spec, FloatAxioms.div_spec.
  unfold SFltb, SF64div, SFdiv.
  change (Prim2SF 0) with (S754_zero false).
  destruct (positive_shape a Ha0 Ha) as [-> | (ma & ea & ->)];
    destruct (above_floor_shape d Hd) as [-> | (md & ed & ->)];
    try reflexivity.
  destruct (SFdiv_core_binary prec emax _ ea _ ed) as [[mz ez] lz].
  cbn [xorb].
  destruct (binary_round_aux_sign false mz ez lz)
    as [-> | [-> | [-> | (m' & e' & ->)]]]; reflexivity.
Qed.

(** Shifting and rounding a non-negative mantissa leaves it non-negative,
    so that rounding it never yields a NaN. *)
Lemma shr_1_nonneg (mrs : shr_record) :
  (0 <= shr_m mrs)%Z -> (0 <= shr_m (shr_1 mrs))%Z.
Proof.
  destruct mrs as [m r s]. destruct m as [ | p | p ]; cbn.
  - lia.
  - intros _. destruct p; cbn; lia.
  - lia.
Qed.

Lemma iter_shr_1_nonneg (p : positive) (mrs : shr_record) :
  (0 <= shr_m mrs)%Z -> (0 <= shr_m (SpecFloat.iter_pos shr_1 p mrs))%Z.
Proof.
  revert mrs. induction p as [ p IH | p IH | ]; intros mrs H; cbn.
  - apply IH, IH, shr_1_nonneg, H.
  - apply IH, IH, H.
  - apply shr_1_nonneg, H.
Qed.

Lemma shr_fexp_nonneg (m e : Z) (l : location) :
  (0 <= m)%Z -> (0 <= shr_m (fst (shr_fexp prec emax m e l)))%Z.
Proof.
  intros H. unfold shr_fexp, shr.
  assert (H0 : (0 <= shr_m (shr_record_of_loc m l))%Z)
    by (destruct l as [ | [ | | ] ]; exact H).
  destruct (Z.sub _ e); cbn [fst]; auto using iter_shr_1_nonneg.
Qed.

Lemma round_nearest_even_nonneg (m : Z) (l : location) :
  (0 <= m)%Z -> (0 <= round_nearest_even m l)%Z.
Proof.
  intros H. destruct l as [ | [ | | ] ]; cbn; try lia.
  destruct (Z.even m); lia.
Qed.

Lemma binary_round_aux_number (s : bool) (m e : Z) (l : location) :
  (0 <= m)%Z ->
  let r := binary_round_aux prec emax s m e l in
  r = S754_zero s \/ r = S754_infinity s
  \/ exists m' e', r = S754_finite s m' e'.
Proof.
  intros H. unfold binary_round_aux.
  pose proof (shr_fexp_nonneg m e l H) as H1.
  destruct (shr_fexp prec emax m e l) as [mrs' e']. cbn [fst] in H1.
  pose proof (shr_fexp_nonneg _ e' loc_Exact
                (round_nearest_even_nonneg _ (loc_of_shr_record mrs') H1))
    as H2.
  destruct (shr_fexp prec emax _ e' loc_Exact) as [mrs'' e''].
  cbn [fst] in H2.
  destruct (shr_m mrs'') as [ | p | p ]; cbn; auto.
  - destruct (Z.leb e'' _); eauto 6.
  - lia.
Qed.

Lemma div_core_nonneg (m1 m2 : positive) (e1 e2 : Z) :
  (0 <= fst (fst (SFdiv_core_binary prec emax (Zpos m1) e1 (Zpos m2) e2)))%Z.
Proof.
  unfold SFdiv_core_binary.
  set (sh := Z.sub _ _).
  set (m' := match sh with Zpos _ => Z.shiftl (Zpos m1) sh
                         | Z0 => Zpos m1 | Zneg _ => Z0 end).
  assert (Hm : (0 <= m')%Z).
  { subst m'. destruct sh; try lia. apply Z.shiftl_nonneg. lia. }
  pose proof (Z.div_pos m' (Zpos m2) Hm eq_refl) as Hq.
  unfold Z.div in Hq.
  destruct (Z.div_eucl m' (Zpos m2)) as [q r]. exact Hq.
Qed.

(** With a finite positive numerator the quotient is a number at or above
    zero. *)
Lemma quotient_nonnegative (a d : float) :
  (a =? 0) = false -> (0 <=? a) = true -> (a <? infinity) = true ->
  (0.1 <=? d) = true ->
  (0 <=? a / d) = true.
Proof.
  intros Ha0 Ha Hfin Hd.
  rewrite FloatAxioms.ltb_spec in Hfin. unfold SFltb in Hfin.
  change (Prim2SF infinity) with (S754_infinity false) in Hfin.
  rewrite FloatAxioms.leb_spec, FloatAxioms.div_spec.
  unfold SFleb, SF64div, SFdiv.
  change (Prim2SF 0) with (S754_zero false).
  destruct (positive_shape a Ha0 Ha) as [E | (ma & ea & E)]; rewrite E in *.
  - discriminate.
  - destruct (above_floor_shape d Hd) as [-> | (md & ed & ->)];
      [ reflexivity | ].
    pose proof (div_core_nonneg ma md ea ed) as Hq.
    destruct (SFdiv_core_binary prec emax _ ea _ ed) as [[mz ez] lz].
    cbn [fst] in Hq. cbn [xorb].
    destruct (binary_round_aux_number false mz ez lz Hq)
      as [-> | [-> | (m' & e' & ->)]]; reflexivity.
Qed.

End FloatFacts.

(** ** Topology *)

Lemma in_parts (part : string) :
  In part parts ->
  part = "pfs_a_front" \/ part = "pfs_b_top" \/ part = "pfs_b_back"
  \/ part = "pfs_b_left" \/ part = "pfs_b_right".
Proof. cbn. intuition auto. Qed.

Lemma in_grippers (gripper : string) :
  In gripper grippers -> gripper = "l_gripper" \/ gripper = "r_gripper".
Proof. cbn. intuition auto. Qed.

Lemma in_fingertips (fingertip : string) :
  In fingertip fingertips ->
  fingertip = "l_fingertip" \/ fingertip = "r_fingertip".
Proof. cbn. intuition auto. Qed.

Ltac each_part H :=
  apply in_parts in H;
  destruct H as [H | [H | [H | [H | H]]]]; subst.

Lemma sensor_num_other (part : string) :
  part <> "pfs_a_front" -> sensor_num part = 4.
Proof.
  intros H. unfold sensor_num.
  destruct (String.eqb_spec part "pfs_a_front");
    [ contradiction | reflexivity ].
Qed.

Lemma sensor_index_valid (part : string) (i : nat) :
  In part parts -> i < sensor_num part ->
  exists index, sensor_index part i = Ok index /\ index < 24.
Proof.
  intros Hp Hi. each_part Hp; cbn in *; eexists; (split; [ reflexivity | lia ]).
Qed.

Lemma sensor_index_injective (p1 p2 : string) (i1 i2 : nat) :
  In p1 parts -> In p2 parts ->
  i1 < sensor_num p1 -> i2 < sensor_num p2 ->
  sensor_index p1 i1 = sensor_index p2 i2 ->
  p1 = p2 /\ i1 = i2.
Proof.
  intros H1 H2 L1 L2 E.
  each_part H1; each_part H2; cbn in *; injection E as E;
    (split; [ reflexivity || lia | lia ]).
Qed.

(** C5. The front board has 8 sensors and each of the four other boards
    has 4; the global index of local index [i] is [i] on the front board
    and 8, 12, 16 and 20 more on the top, back, left and right boards; over
    the local indices below the sensor count the map from (board, local
    index) to the global index is injective; its image is exactly
    0, ..., 23. *)
Theorem sensor_topology :
  sensor_num "pfs_a_front" = 8
  /\ (forall part, In part parts -> part <> "pfs_a_front" ->
      sensor_num part = 4)
  /\ (forall i,
        sensor_index "pfs_a_front" i = Ok i
        /\ sensor_index "pfs_b_top" i = Ok (8 + i)
        /\ sensor_index "pfs_b_back" i = Ok (12 + i)
        /\ sensor_index "pfs_b_left" i = Ok (16 + i)
        /\ sensor_index "pfs_b_right" i = Ok (20 + i))
  /\ (forall p1 i1 p2 i2,
        In p1 parts -> In p2 parts ->
        i1 < sensor_num p1 -> i2 < sensor_num p2 ->
        sensor_index p1 i1 = sensor_index p2 i2 ->
        p1 = p2 /\ i1 = i2)
  /\ (forall k,
        k < 24 <->
        exists part i,
          In part parts /\ i < sensor_num part
          /\ sensor_index part i = Ok k).
Proof.
  split; [ reflexivity | ].
  split; [ intros part _ H; now apply sensor_num_other | ].
  split; [ intros i; repeat split | ].
  split.
  - intros p1 i1 p2 i2 H1 H2 L1 L2 E.
    now apply (sensor_index_injective p1 p2 i1 i2).
  - intros k. split.
    + intros Hk.
      destruct (Nat.lt_ge_cases k 8) as [L8 | G8].
      { exists "pfs_a_front", k. cbn. auto. }
      destruct (Nat.lt_ge_cases k 12) as [L12 | G12].
      { exists "pfs_b_top", (k - 8). cbn.
        repeat split; auto; try lia. f_equal. lia. }
      destruct (Nat.lt_ge_cases k 16) as [L16 | G16].
      { exists "pfs_b_back", (k - 12). cbn.
        repeat split; auto; try lia. f_equal. lia. }
      destruct (Nat.lt_ge_cases k 20) as [L20 | G20].
      { exists "pfs_b_left", (k - 16). cbn.
        repeat split; auto 6; try lia. f_equal. lia. }
      exists "pfs_b_right", (k - 20). cbn.
      repeat split; auto 6; try lia. f_equal. lia.
    + intros (part & i & Hp & Hi & E).
      destruct (sensor_index_valid part i Hp Hi) as (index & E' & L).
      congruence.
Qed.

(** ** The calibration transform *)

Section Calibration.

Open Scope float_scope.

Variable self : ConvertPFS.

Lemma proximity_to_distance_eq (raw : float) (gripper fingertip part : string)
    (i index : nat) (a b : float) :
  sensor_index part i = Ok index ->
  param (pfs_params self) gripper fingertip "proximity_a" index = Ok a ->
  param (pfs_params self) gripper fingertip "proximity_b" index = Ok b ->
  proximity_to_distance self raw gripper fingertip part i =
    if a =? 0 then Ok infinity
    else Py.sqrt (a / Py.max 0.1 (raw - b)).
Proof.
  intros Hi Ha Hb. unfold proximity_to_distance.
  rewrite Hi. cbn [rbind]. rewrite Ha. cbn [rbind]. rewrite Hb. cbn [rbind].
  destruct (a =? 0); [ reflexivity | ].
  unfold Py.div.
  now rewrite (above_floor_nonzero _ (max_floor (raw - b))).
Qed.

End Calibration.

(** C1. At a valid local index of a board the global index exists and is
    below 24; with [a] and [b] the coefficients [proximity_a] and
    [proximity_b] found there, [proximity_to_distance] returns +infinity when
    [a == 0] and otherwise what [math.sqrt] returns on
    [a / max(0.1, raw - b)] (a fault when that quotient is negative, its
    square root otherwise). *)
Theorem proximity_to_distance_spec (self : ConvertPFS) (raw : float)
    (gripper fingertip part : string) (i : nat) :
  In part parts -> i < sensor_num part ->
  exists index,
    sensor_index part i = Ok index /\ index < 24
    /\ forall a b,
        param (pfs_params self) gripper fingertip "proximity_a" index = Ok a ->
        param (pfs_params self) gripper fingertip "proximity_b" index = Ok b ->
        ((a =? 0)%float = true ->
         proximity_to_distance self raw gripper fingertip part i = Ok infinity)
        /\ ((a =? 0)%float = false ->
            proximity_to_distance self raw gripper fingertip part i =
              Py.sqrt (a / Py.max 0.1 (raw - b))%float).
Proof.
  intros Hp Hi.
  destruct (sensor_index_valid part i Hp Hi) as (index & E & L).
  exists index. split; [ exact E | ]. split; [ exact L | ].
  intros a b Ha Hb.
  split; intros H0;
    rewrite (proximity_to_distance_eq self raw _ _ _ _ _ a b E Ha Hb);
    now rewrite H0.
Qed.

(** The spec's worked value: raw = 10 with a = 0.01 and b = 5 gives
    sqrt(0.01 / 5), about 0.0447. *)
Lemma proximity_to_distance_spec_witness :
  exists index,
    sensor_index "pfs_a_front" 0 = Ok index /\ index < 24
    /\ forall a b,
        param (pfs_params Sample.node) "l_gripper" "l_fingertip"
          "proximity_a" index = Ok a ->
        param (pfs_params Sample.node) "l_gripper" "l_fingertip"
          "proximity_b" index = Ok b ->
        ((a =? 0)%float = true ->
         proximity_to_distance Sample.node 10 "l_gripper" "l_fingertip"
           "pfs_a_front" 0 = Ok infinity)
        /\ ((a =? 0)%float = false ->
            proximity_to_distance Sample.node 10 "l_gripper" "l_fingertip"
              "pfs_a_front" 0 = Py.sqrt (a / Py.max 0.1 (10 - b))%float).
Proof.
  apply (proximity_to_distance_spec Sample.node 10 "l_gripper" "l_fingertip"
           "pfs_a_front" 0).
  - cbn. auto.
  - cbn. lia.
Defined.

Example proximity_to_distance_worked :
  proximity_to_distance Sample.node 10 "l_gripper" "l_fingertip"
    "pfs_a_front" 0 = Ok (PrimFloat.sqrt (0.01 / 5))%float
  /\ (0.0447 <? PrimFloat.sqrt (0.01 / 5))%float = true
  /\ (PrimFloat.sqrt (0.01 / 5) <? 0.0448)%float = true.
Proof. repeat split; vm_compute; reflexivity. Qed.

(** C8. With a coefficient [a] that is not zero and at least zero, the
    computation of the distance does not fault: the denominator
    [max(0.1, raw - b)] is at least 0.1, so the division is defined; the
    quotient handed to [math.sqrt] is not below zero, and it is a number at
    or above zero for every finite [a]; the function returns the square
    root. *)
Theorem distance_never_faults (self : ConvertPFS) (raw : float)
    (gripper fingertip part : string) (i index : nat) (a b : float) :
  sensor_index part i = Ok index ->
  param (pfs_params self) gripper fingertip "proximity_a" index = Ok a ->
  param (pfs_params self) gripper fingertip "proximity_b" index = Ok b ->
  (a =? 0)%float = false -> (0 <=? a)%float = true ->
  let d := Py.max 0.1 (raw - b)%float in
  (0.1 <=? d)%float = true
  /\ Py.div a d = Ok (a / d)%float
  /\ (a / d <? 0)%float = false
  /\ ((a <? infinity)%float = true -> (0 <=? a / d)%float = true)
  /\ Py.sqrt (a / d)%float = Ok (PrimFloat.sqrt (a / d))
  /\ proximity_to_distance self raw gripper fingertip part i =
       Ok (PrimFloat.sqrt (a / d)).
Proof.
  intros Hi Ha Hb Ha0 Hpos d.
  pose proof (max_floor (raw - b)) as Hd. fold d in Hd.
  pose proof (quotient_not_negative a d Ha0 Hpos Hd) as Hq.
  split; [ exact Hd | ].
  split; [ unfold Py.div; now rewrite (above_floor_nonzero d Hd) | ].
  split; [ exact Hq | ].
  split; [ intros Hfin; now apply quotient_nonnegative | ].
  assert (Hs : Py.sqrt (a / d)%float = Ok (PrimFloat.sqrt (a / d)))
    by (unfold Py.sqrt; now rewrite Hq).
  split; [ exact Hs | ].
  rewrite (proximity_to_distance_eq self raw _ _ _ _ _ a b Hi Ha Hb).
  rewrite Ha0. exact Hs.
Qed.

Lemma distance_never_faults_witness :
  let d := Py.max 0.1 (10 - 5)%float in
  (0.1 <=? d)%float = true
  /\ Py.div 0.01 d = Ok (0.01 / d)%float
  /\ (0.01 / d <? 0)%float = false
  /\ ((0.01 <? infinity)%float = true -> (0 <=? 0.01 / d)%float = true)
  /\ Py.sqrt (0.01 / d)%float = Ok (PrimFloat.sqrt (0.01 / d))
  /\ proximity_to_distance Sample.node 10 "l_gripper" "l_fingertip"
       "pfs_a_front" 0 = Ok (PrimFloat.sqrt (0.01 / d)).
Proof.
  apply (distance_never_faults Sample.node 10 "l_gripper" "l_fingertip"
           "pfs_a_front" 0 0 0.01 5); reflexivity.
Defined.

(** ** The log of a computation *)

Section Monad.

Context {A B : Type}.

Lemma bind_lift_Ok (a : A) (k : A -> M B) : bind (lift (Ok a)) k = k a.
Proof. unfold bind, lift. now destruct (k a). Qed.

Lemma bind_lift_Raise (e : exn) (k : A -> M B) :
  bind (lift (Raise e)) k = ([], Raise e).
Proof. reflexivity. Qed.

Lemma bind_publish (p : Publisher) (m : message) (k : unit -> M B) :
  bind (publish p m) k =
    let (l, r) := k tt in (mkEvent (topic p) m :: l, r).
Proof. reflexivity. Qed.

Lemma bind_Ok (m : M A) (k : A -> M B) (log : list event) (b : B) :
  bind m k = (log, Ok b) ->
  exists l1 a l2, m = (l1, Ok a) /\ k a = (l2, Ok b) /\ log = l1 ++ l2.
Proof.
  destruct m as [l1 [a | e]]; cbn; [ | discriminate ].
  destruct (k a) as [l2 r] eqn:E. intros [= <- ->]. eauto 6.
Qed.

End Monad.

Section ForEach.

Context {A S : Type}.
Variable body : A -> S -> M S.

(** A loop that runs to its end logs what its iterations log, in order;
    [Inv done s] relates the state to the items already handled. *)
Lemma for_each_log (Inv : list A -> S -> Prop) (out : A -> list event)
    (xs : list A) :
  (forall x s l s' done,
      In x xs -> Inv done s -> body x s = (l, Ok s') ->
      l = out x /\ Inv (done ++ [x]) s') ->
  forall done s log s',
    Inv done s -> for_each xs body s = (log, Ok s') ->
    log = flat_map out xs /\ Inv (done ++ xs) s'.
Proof.
  induction xs as [ | x xs' IH ]; intros Hstep done s log s' Hinv Hrun.
  - cbn in Hrun. injection Hrun as <- <-. now rewrite app_nil_r.
  - cbn [for_each] in Hrun.
    apply bind_Ok in Hrun as (l1 & s1 & l2 & Hx & Hrest & ->).
    destruct (Hstep x s l1 s1 done (or_introl eq_refl) Hinv Hx) as [-> Hinv1].
    destruct (IH (fun y t l t' dn Hy => Hstep y t l t' dn (or_intror Hy))
                (done ++ [x]) s1 l2 s' Hinv1 Hrest) as [-> Hinv2].
    split; [ reflexivity | ].
    now rewrite <- app_assoc in Hinv2.
Qed.

(** Whatever the outcome, the log of a loop holds only messages its
    iterations may log. *)
Lemma for_each_Forall (Inv : S -> Prop) (Q : event -> Prop) (xs : list A) :
  (forall x s, Inv s ->
     Forall Q (fst (body x s))
     /\ forall s', snd (body x s) = Ok s' -> Inv s') ->
  forall s, Inv s ->
    Forall Q (fst (for_each xs body s))
    /\ forall s', snd (for_each xs body s) = Ok s' -> Inv s'.
Proof.
  intros Hstep. induction xs as [ | x xs' IH ]; intros s Hinv; cbn.
  - split; [ constructor | now intros s' [= <-] ].
  - destruct (Hstep x s Hinv) as [HQ Hnext].
    destruct (body x s) as [l [s1 | e]]; cbn in *.
    + destruct (IH s1 (Hnext s1 eq_refl)) as [HQ' Hnext'].
      destruct (for_each xs' body s1) as [l' r]. cbn in *.
      split; [ now apply Forall_app | exact Hnext' ].
    + split; [ exact HQ | discriminate ].
Qed.

End ForEach.

(** Filtering a log that is laid out item by item. *)
Section Select.

Context {A : Type}.
Variable P : event -> bool.
Variable out : A -> list event.

Lemma filter_flat_map_none (xs : list A) :
  (forall x, In x xs -> filter P (out x) = []) ->
  filter P (flat_map out xs) = [].
Proof.
  induction xs as [ | x xs' IH ]; intros H; cbn; [ reflexivity | ].
  rewrite filter_app, (H x (or_introl eq_refl)), IH; auto.
  intros y Hy. apply H. now right.
Qed.

Lemma filter_flat_map_select (xs : list A) (x0 : A) :
  NoDup xs -> In x0 xs ->
  (forall x, In x xs -> x <> x0 -> filter P (out x) = []) ->
  filter P (flat_map out xs) = filter P (out x0).
Proof.
  induction xs as [ | x xs' IH ]; intros Hnd Hin Hother; [ destruct Hin | ].
  cbn. rewrite filter_app. inversion Hnd as [ | ? ? Hnot Hnd' ]; subst.
  destruct Hin as [-> | Hin].
  - rewrite filter_flat_map_none, app_nil_r; [ reflexivity | ].
    intros y Hy. apply Hother; [ now right | ].
    intros ->. contradiction.
  - rewrite (Hother x (or_introl eq_refl)), IH; auto.
    + intros y Hy. apply Hother. now right.
    + intros ->. contradiction.
Qed.

Lemma filter_flat_map_all (xs : list A) :
  (forall x, In x xs -> filter P (out x) = out x) ->
  filter P (flat_map out xs) = flat_map out xs.
Proof.
  induction xs as [ | x xs' IH ]; intros H; cbn; [ reflexivity | ].
  rewrite filter_app, (H x (or_introl eq_refl)), IH; auto.
  intros y Hy. apply H. now right.
Qed.

End Select.

(** ** The registry *)

Lemma str_in_In (s : string) (l : list string) :
  str_in s l = true <-> In s l.
Proof.
  unfold str_in. rewrite existsb_exists. split.
  - intros (x & Hx & E). apply String.eqb_eq in E. now subst.
  - intros H. exists s. split; [ exact H | apply String.eqb_refl ].
Qed.

Lemma channel_ok_sound (c : channel) : channel_ok c = true -> channel_form c.
Proof.
  unfold channel_ok, channel_form.
  rewrite !andb_true_iff, !str_in_In.
  intros [[[Hg Hf] Hp] Hk]. repeat (split; [ assumption | ]).
  destruct (ch_index c) as [ i | ].
  - rewrite !andb_true_iff, str_in_In, Nat.ltb_lt, String.eqb_eq in Hk.
    destruct Hk as [[Hs Hi] Ht]. cbn in Hs. intuition auto.
  - rewrite !andb_true_iff, str_in_In, String.eqb_eq, orb_true_iff,
      negb_true_iff, String.eqb_eq in Hk.
    destruct Hk as [[Hs Ht] Himu]. cbn in Hs.
    repeat split; [ intuition auto | exact Ht | ].
    intros E. destruct Himu as [Hn | Hfront]; [ | exact Hfront ].
    rewrite E in Hn. discriminate.
Qed.

(** C9. Every publisher registered by [__init__] is stored under a
    gripper, a fingertip and a board of the node, and its topic is
    [/pfs/<gripper>/<fingertip>/<board>/<kind>] for the board-level kinds
    [wrench] and [imu], and
    [/pfs/<gripper>/<fingertip>/<board>/<kind>/<local index>] for the
    per-sensor kinds [proximity_distance], [proximity_cloud] and [force];
    a per-sensor publisher has a local index below the sensor count of its
    board, and an [imu] publisher is on the front board. *)
Theorem channel_names (params : pfs_params_t) :
  Forall channel_form (channels (pub (init params))).
Proof.
  apply Forall_forall. intros c Hc. apply channel_ok_sound.
  revert c Hc. apply forallb_forall. vm_compute. reflexivity.
Qed.

Ltac each_gripper H :=
  apply in_grippers in H; destruct H as [H | H]; subst.
Ltac each_fingertip H :=
  apply in_fingertips in H; destruct H as [H | H]; subst.
Ltac each_index i H :=
  cbn in H;
  do 8 (try (destruct i as [ | i ]));
  try (exfalso; lia).

Lemma pub_each_init (params : pfs_params_t) (g f part sensor : string)
    (i : nat) :
  In g grippers -> In f fingertips -> In part parts ->
  In sensor ["proximity_distance"; "proximity_cloud"; "force"] ->
  i < sensor_num part ->
  exists p,
    pub_each (init params) g f part sensor i = Ok p
    /\ topic p = sensor_topic g f part sensor i.
Proof.
  intros Hg Hf Hp Hs Hi.
  each_gripper Hg; each_fingertip Hf; each_part Hp;
    destruct Hs as [<- | [<- | [<- | []]]];
    each_index i Hi;
    (eexists; split; [ vm_compute; reflexivity | reflexivity ]).
Qed.

Lemma pub_one_wrench (params : pfs_params_t) (g f part : string) :
  In g grippers -> In f fingertips -> In part parts ->
  exists p,
    pub_one (init params) g f part "wrench" = Ok p
    /\ topic p = board_topic g f part "wrench".
Proof.
  intros Hg Hf Hp.
  each_gripper Hg; each_fingertip Hf; each_part Hp;
    (eexists; split; [ vm_compute; reflexivity | reflexivity ]).
Qed.

Lemma pub_one_imu (params : pfs_params_t) (g f : string) :
  In g grippers -> In f fingertips ->
  exists p,
    pub_one (init params) g f "pfs_a_front" "imu" = Ok p
    /\ topic p = board_topic g f "pfs_a_front" "imu".
Proof.
  intros Hg Hf.
  each_gripper Hg; each_fingertip Hf;
    (eexists; split; [ vm_compute; reflexivity | reflexivity ]).
Qed.

(** ** Topic names tell the channels apart *)

Lemma append_eqb_l (p a b : string) :
  String.eqb (p ++ a) (p ++ b) = String.eqb a b.
Proof.
  induction p as [ | c p IH ]; cbn; [ reflexivity | ].
  now rewrite Ascii.eqb_refl.
Qed.

Lemma key_eqb_eq (k k' : channel_key) : key_eqb k k' = true <-> k = k'.
Proof.
  destruct k as [[p s] oi], k' as [[p' s'] oi']. unfold key_eqb.
  rewrite !andb_true_iff, !String.eqb_eq. split.
  - intros [[-> ->] H]. destruct oi, oi'; try discriminate; [ | reflexivity ].
    apply Nat.eqb_eq in H. now subst.
  - intros [= -> -> ->]. repeat split.
    destruct oi'; [ apply Nat.eqb_refl | reflexivity ].
Qed.

Lemma key_topic_suffix (g f : string) (k k' : channel_key) :
  String.eqb (key_topic g f k) (key_topic g f k')
  = String.eqb (key_suffix k) (key_suffix k').
Proof.
  destruct k as [[p s] [i | ]], k' as [[p' s'] [i' | ]];
    unfold key_topic, key_suffix, sensor_topic, board_topic;
    now rewrite 5!append_eqb_l.
Qed.

Lemma suffixes_apart :
  forallb
    (fun k =>
       forallb
         (fun k' =>
            Bool.eqb (String.eqb (key_suffix k) (key_suffix k')) (key_eqb k k'))
         all_keys)
    all_keys = true.
Proof. vm_compute. reflexivity. Qed.

Lemma key_topic_eqb (g f : string) (k k' : channel_key) :
  In k all_keys -> In k' all_keys ->
  String.eqb (key_topic g f k) (key_topic g f k') = key_eqb k k'.
Proof.
  intros H H'. rewrite key_topic_suffix.
  pose proof suffixes_apart as HA.
  rewrite forallb_forall in HA. specialize (HA k H).
  rewrite forallb_forall in HA. specialize (HA k' H').
  now apply Bool.eqb_prop in HA.
Qed.

Lemma sensor_key_in (part kind : string) (i : nat) :
  In part parts -> In kind per_sensor_kinds -> i < sensor_num part ->
  In (part, kind, Some i) all_keys.
Proof.
  intros Hp Hk Hi. unfold all_keys. apply in_flat_map.
  exists part. split; [ exact Hp | ]. apply in_or_app. left.
  apply in_flat_map. exists kind. split; [ exact Hk | ].
  apply (in_map (fun j => (part, kind, Some j))), in_seq. lia.
Qed.

Lemma wrench_key_in (part : string) :
  In part parts -> In (part, "wrench", None) all_keys.
Proof.
  intros Hp. unfold all_keys. apply in_flat_map.
  exists part. split; [ exact Hp | ]. apply in_or_app. right. cbn. auto.
Qed.

Lemma parts_NoDup : NoDup parts.
Proof.
  unfold parts. repeat constructor; cbn; intuition discriminate.
Qed.

Lemma key_eqb_part (p s p' s' : string) (oi oi' : option nat) :
  p <> p' -> key_eqb (p, s, oi) (p', s', oi') = false.
Proof.
  intros H. unfold key_eqb. apply String.eqb_neq in H. now rewrite H.
Qed.

Lemma key_eqb_kind (p s p' s' : string) (oi oi' : option nat) :
  s <> s' -> key_eqb (p, s, oi) (p', s', oi') = false.
Proof.
  intros H. unfold key_eqb. apply String.eqb_neq in H. rewrite H.
  now rewrite andb_false_r.
Qed.

Lemma key_eqb_index (p s p' s' : string) (i i' : nat) :
  i <> i' -> key_eqb (p, s, Some i) (p', s', Some i') = false.
Proof.
  intros H. unfold key_eqb. apply Nat.eqb_neq in H. rewrite H.
  apply andb_false_r.
Qed.

Lemma key_eqb_refl (k : channel_key) : key_eqb k k = true.
Proof. now apply key_eqb_eq. Qed.

Lemma board_force_keys_in (part : string) (k : channel_key) :
  In part parts -> In k (board_force_keys part) -> In k all_keys.
Proof.
  intros Hp Hk. unfold board_force_keys in Hk.
  apply in_app_or in Hk as [Hk | [<- | []]].
  - apply in_map_iff in Hk as (i & <- & Hi). apply in_seq in Hi.
    apply sensor_key_in; [ exact Hp | cbn; auto | lia ].
  - now apply wrench_key_in.
Qed.

Lemma board_force_keys_other (p0 p s : string) (oi : option nat) :
  p <> p0 -> existsb (key_eqb (p, s, oi)) (board_force_keys p0) = false.
Proof.
  intros H. unfold board_force_keys. rewrite existsb_app. cbn [existsb].
  rewrite (key_eqb_part _ _ _ _ _ _ H). cbn [orb]. rewrite orb_false_r.
  induction (range (sensor_num p0)) as [ | i l IH ]; cbn [map existsb];
    [ reflexivity | ].
  now rewrite (key_eqb_part _ _ _ _ _ _ H).
Qed.

Lemma board_force_keys_kind (p0 p s : string) (oi : option nat) :
  s <> "force" -> s <> "wrench" ->
  existsb (key_eqb (p, s, oi)) (board_force_keys p0) = false.
Proof.
  intros H1 H2. unfold board_force_keys. rewrite existsb_app. cbn [existsb].
  rewrite (key_eqb_kind _ _ _ _ _ _ H2). cbn [orb]. rewrite orb_false_r.
  induction (range (sensor_num p0)) as [ | i l IH ]; cbn [map existsb];
    [ reflexivity | ].
  now rewrite (key_eqb_kind _ _ _ _ _ _ H1).
Qed.

Lemma board_force_keys_own (p0 : string) (k : channel_key) :
  In k (board_force_keys p0) ->
  existsb (key_eqb k) (board_force_keys p0) = true.
Proof.
  intros H. apply existsb_exists. exists k. split; [ exact H | ].
  apply key_eqb_refl.
Qed.

(** ** The dispatch, loop by loop *)

Ltac lift_Ok H r :=
  let E := fresh "E" in
  destruct r eqn:E;
  [ rewrite bind_lift_Ok in H
  | rewrite bind_lift_Raise in H; discriminate H ].

Section Loops.

Open Scope float_scope.

Variable params : pfs_params_t.
Variable msg : PR2FingertipSensor.
Variables g f : string.
Hypothesis Hg : In g grippers.
Hypothesis Hf : In f fingertips.

Lemma header_inv_init :
  header_inv msg (set_stamp Header_new (stamp (header msg))).
Proof. split; reflexivity. Qed.

Lemma set_frame_id_inv (hd : Header) (s : string) :
  header_inv msg hd -> set_frame_id hd s = sample_header msg s.
Proof.
  intros [H1 H2]. unfold set_frame_id, sample_header. now rewrite H1, H2.
Qed.

Lemma sample_header_inv (s : string) :
  header_inv msg (sample_header msg s).
Proof. split; reflexivity. Qed.

Lemma proximity_step_log (part : string) (i : nat) (hd hd' : Header)
    (l : list event) :
  In part parts -> i < sensor_num part -> header_inv msg hd ->
  proximity_step (init params) msg g f part (board_frame g f part) i hd
    = (l, Ok hd') ->
  l = proximity_events params msg g f part i
  /\ header_inv msg hd'
  /\ exists d, distance_at params msg g f part i = Ok d.
Proof.
  intros Hp Hi Hinv H. unfold proximity_step in H.
  rewrite (set_frame_id_inv hd _ Hinv) in H.
  unfold proximity_events, distance_at.
  lift_Ok H (sensor_index part i). cbn [rbind].
  lift_Ok H (list_get (proximity msg) a). cbn [rbind].
  lift_Ok H (proximity_to_distance (init params) a0 g f part i).
  destruct (a1 <? 0.1).
  - destruct (pub_each_init params g f part "proximity_distance" i Hg Hf Hp
                ltac:(cbn; auto) Hi) as (p & Ep & Tp).
    destruct (pub_each_init params g f part "proximity_cloud" i Hg Hf Hp
                ltac:(cbn; auto) Hi) as (p' & Ep' & Tp').
    rewrite Ep, Ep' in H.
    rewrite bind_lift_Ok, bind_publish, bind_lift_Ok, bind_publish in H.
    cbn in H. injection H as <- <-. rewrite Tp, Tp'.
    split; [ reflexivity | split; [ apply sample_header_inv | eauto ] ].
  - injection H as <- <-.
    split; [ reflexivity | split; [ apply sample_header_inv | eauto ] ].
Qed.

(** A run of [publish_proximity] that reaches its end has computed a
    distance for every sensor, and has logged the messages of the sensors
    board by board, in the order of their local indices. *)
Lemma publish_proximity_log (log : list event) :
  publish_proximity (init params) msg g f = (log, Ok tt) ->
  log =
    flat_map
      (fun part =>
         flat_map (proximity_events params msg g f part)
           (range (sensor_num part)))
      parts
  /\ forall part i,
      In part parts -> i < sensor_num part ->
      exists d, distance_at params msg g f part i = Ok d.
Proof.
  intros H. unfold publish_proximity in H.
  apply bind_Ok in H as (l1 & hd' & l2 & H & Hret & ->).
  injection Hret as <-. rewrite app_nil_r.
  pose (Q := fun part i => exists d, distance_at params msg g f part i = Ok d).
  eapply (for_each_log _
            (fun done hd =>
               header_inv msg hd
               /\ Forall (fun part =>
                            Forall (Q part) (range (sensor_num part))) done))
    with (done := []) in H as [-> [_ HQ]].
  - split; [ reflexivity | ].
    intros part i Hp Hi. rewrite Forall_forall in HQ.
    specialize (HQ part Hp). rewrite Forall_forall in HQ.
    apply HQ, in_seq. lia.
  - intros part hd l hd1 done Hp [Hinv Hdone] Hrun.
    eapply (for_each_log _
              (fun dn hd => header_inv msg hd /\ Forall (Q part) dn))
      with (done := []) in Hrun as [-> [Hinv' HQ]].
    + split; [ reflexivity | split; [ exact Hinv' | ] ].
      apply Forall_app. split; [ exact Hdone | ].
      constructor; [ exact HQ | constructor ].
    + intros i hd2 l' hd3 dn Hi [Hinv2 Hdn] Hstep.
      apply in_seq in Hi.
      destruct (proximity_step_log part i hd2 hd3 l' Hp ltac:(lia) Hinv2
                  Hstep) as (-> & Hinv3 & Hd).
      split; [ reflexivity | split; [ exact Hinv3 | ] ].
      apply Forall_app. split; [ exact Hdn | ].
      constructor; [ exact Hd | constructor ].
    + split; [ exact Hinv | constructor ].
  - split; [ apply header_inv_init | constructor ].
Qed.

(** *** publish_force *)

Lemma sensor_count_nonzero (part : string) :
  (Py.float_of_nat (sensor_num part) =? 0) = false.
Proof.
  unfold sensor_num. destruct (String.eqb part "pfs_a_front"); reflexivity.
Qed.

Lemma average_snoc (n : nat) (zs : list float) (z : float) :
  average n (zs ++ [z]) = average n zs + z / Py.float_of_nat n.
Proof. unfold average. now rewrite fold_left_app. Qed.

Lemma force_step_log (part : string) (i : nat) (st st' : Header * float)
    (done : list nat) (l : list event) :
  In part parts -> i < sensor_num part ->
  force_inv params msg g f part done st ->
  force_step (init params) msg g f part (board_frame g f part)
    (sensor_num part) i st = (l, Ok st') ->
  l = force_events params msg g f part i
  /\ force_inv params msg g f part (done ++ [i]) st'.
Proof.
  intros Hp Hi (Hinv & Havg & Hdone) H.
  destruct st as [hd avg]. cbn [fst snd] in *.
  unfold force_step in H. unfold force_events, force_inv.
  assert (F : force_at params msg g f part i
              = (index <~ sensor_index part i;;
                 preload <~ param params g f "preload" index;;
                 sensitivity <~ param params g f "sensitivity" index;;
                 raw <~ list_get (force msg) index;;
                 Py.div (0.105 * (raw - preload)) sensitivity)%py)
    by reflexivity.
  change (pfs_params (init params)) with params in H.
  lift_Ok H (sensor_index part i). cbn [rbind] in F.
  lift_Ok H (param params g f "preload" a). cbn [rbind] in F.
  lift_Ok H (param params g f "sensitivity" a). cbn [rbind] in F.
  lift_Ok H (list_get (force msg) a). cbn [rbind] in F.
  lift_Ok H (Py.div (0.105 * (a2 - a0)) a1).
  destruct (pub_each_init params g f part "force" i Hg Hf Hp
              ltac:(cbn; auto) Hi) as (p & Ep & Tp).
  rewrite Ep in H. rewrite bind_lift_Ok, bind_publish in H.
  unfold Py.div at 1 in H. rewrite sensor_count_nonzero in H.
  rewrite bind_lift_Ok in H. cbn in H. injection H as <- <-.
  rewrite F, Tp. cbn [value_or_zero fst snd].
  rewrite (set_frame_id_inv hd _ Hinv).
  split; [ reflexivity | ].
  split; [ apply sample_header_inv | ].
  split.
  - rewrite map_app. cbn [map]. rewrite average_snoc, <- Havg.
    now rewrite F.
  - apply Forall_app. split; [ exact Hdone | ].
    constructor; [ eauto | constructor ].
Qed.

(** A run of [publish_force] that reaches its end has computed a force
    for every sensor, and has logged, board by board, the wrenches of the
    sensors and then the wrench of the board. *)
Lemma publish_force_log (log : list event) :
  publish_force (init params) msg g f = (log, Ok tt) ->
  log = flat_map (board_events params msg g f) parts
  /\ forall part i,
      In part parts -> i < sensor_num part ->
      exists z, force_at params msg g f part i = Ok z.
Proof.
  intros H. unfold publish_force in H.
  apply bind_Ok in H as (l1 & hd' & l2 & H & Hret & ->).
  injection Hret as <-. rewrite app_nil_r.
  pose (Q := fun part i => exists z, force_at params msg g f part i = Ok z).
  eapply (for_each_log _
            (fun done hd =>
               header_inv msg hd
               /\ Forall (fun part =>
                            Forall (Q part) (range (sensor_num part))) done))
    with (done := []) in H as [-> [_ HQ]].
  - split; [ reflexivity | ].
    intros part i Hp Hi. rewrite Forall_forall in HQ.
    specialize (HQ part Hp). rewrite Forall_forall in HQ.
    apply HQ, in_seq. lia.
  - intros part hd l hd1 done Hp [Hinv Hdone] Hrun.
    apply bind_Ok in Hrun as (la & [hd2 avg] & lb & Hloop & Hboard & ->).
    eapply (for_each_log _ (force_inv params msg g f part))
      with (done := []) in Hloop
      as [-> (Hinv2 & Havg & HQ)].
    + cbn [fst snd app] in *.
      destruct (pub_one_wrench params g f part Hg Hf Hp) as (p & Ep & Tp).
      rewrite Ep, bind_lift_Ok, bind_publish in Hboard.
      cbn in Hboard. injection Hboard as <- <-.
      rewrite Tp, (set_frame_id_inv hd2 _ Hinv2), Havg.
      split; [ reflexivity | ].
      split; [ apply sample_header_inv | ].
      apply Forall_app. split; [ exact Hdone | ].
      constructor; [ exact HQ | constructor ].
    + intros i st l' st' dn Hi Hst Hstep. apply in_seq in Hi.
      apply (force_step_log part i st st' dn l' Hp ltac:(lia) Hst Hstep).
    + split; [ exact Hinv | split; [ reflexivity | constructor ] ].
  - split; [ apply header_inv_init | constructor ].
Qed.

(** *** publish_imu and the callback *)

Lemma publish_imu_log :
  publish_imu (init params) msg g f
  = ([imu_event g f (scaled_imu (imu msg))], Ok (scaled_msg msg)).
Proof.
  unfold publish_imu.
  destruct (pub_one_imu params g f Hg Hf) as (p & Ep & Tp).
  rewrite Ep, bind_lift_Ok, bind_publish. cbn. rewrite Tp. reflexivity.
Qed.

(** A sample processed to the end has logged [sample_log], has left the
    message as [scaled_msg], and has computed a distance and a force for
    every sensor. *)
Lemma cb_log (log : list event) (msg' : PR2FingertipSensor) :
  cb (init params) msg (g, f) = (log, Ok msg') ->
  log = sample_log params msg g f
  /\ msg' = scaled_msg msg
  /\ forall part i,
      In part parts -> i < sensor_num part ->
      (exists d, distance_at params msg g f part i = Ok d)
      /\ (exists z, force_at params msg g f part i = Ok z).
Proof.
  intros H. unfold cb in H. cbn [fst snd] in H.
  apply bind_Ok in H as (l1 & [] & l2 & H1 & H & ->).
  apply bind_Ok in H as (l3 & [] & l4 & H2 & H3 & ->).
  apply publish_proximity_log in H1 as [-> Hd].
  apply publish_force_log in H2 as [-> Hz].
  rewrite publish_imu_log in H3. injection H3 as <- <-.
  repeat split; auto.
Qed.

(** *** Filtering the log by channel *)

Section KeyFilter.

Variable P : event -> bool.
Variable sel : channel_key -> bool.
Hypothesis P_sel :
  forall k m, In k all_keys -> P (mkEvent (key_topic g f k) m) = sel k.

Lemma filter_proximity_events (part : string) (i : nat) :
  In part parts -> i < sensor_num part ->
  filter P (proximity_events params msg g f part i)
  = match distance_at params msg g f part i with
    | Ok d =>
        if d <? 0.1 then
          (if sel (part, "proximity_distance", Some i)
           then [distance_event g f part i d] else [])
          ++ (if sel (part, "proximity_cloud", Some i)
              then [cloud_event msg g f part i d] else [])
        else []
    | Raise _ => []
    end.
Proof.
  intros Hp Hi. unfold proximity_events.
  destruct (distance_at params msg g f part i) as [ d | e ];
    [ | reflexivity ].
  destruct (d <? 0.1); [ | reflexivity ].
  cbn [filter]. unfold distance_event, cloud_event.
  rewrite (P_sel (part, "proximity_distance", Some i)),
    (P_sel (part, "proximity_cloud", Some i))
    by (apply sensor_key_in; cbn; auto).
  destruct (sel (part, "proximity_distance", Some i)),
    (sel (part, "proximity_cloud", Some i)); reflexivity.
Qed.

Lemma filter_force_events (part : string) (i : nat) :
  In part parts -> i < sensor_num part ->
  filter P (force_events params msg g f part i)
  = if sel (part, "force", Some i)
    then force_events params msg g f part i else [].
Proof.
  intros Hp Hi. unfold force_events, force_event. cbn [filter].
  rewrite (P_sel (part, "force", Some i))
    by (apply sensor_key_in; cbn; auto).
  reflexivity.
Qed.

Lemma filter_board_event (part : string) (z : float) :
  In part parts ->
  filter P [board_event msg g f part z]
  = if sel (part, "wrench", None)
    then [board_event msg g f part z] else [].
Proof.
  intros Hp. unfold board_event. cbn [filter].
  now rewrite (P_sel (part, "wrench", None)) by now apply wrench_key_in.
Qed.

Lemma filter_imu_event (m : Imu) :
  filter P [imu_event g f m]
  = if sel ("pfs_a_front", "imu", None) then [imu_event g f m] else [].
Proof.
  unfold imu_event. cbn [filter].
  rewrite (P_sel ("pfs_a_front", "imu", None)); [ reflexivity | ].
  vm_compute. auto 30.
Qed.

(** A filter that selects no proximity channel empties the proximity
    log. *)
Lemma filter_proximity_log_none :
  (forall part i, sel (part, "proximity_distance", Some i) = false) ->
  (forall part i, sel (part, "proximity_cloud", Some i) = false) ->
  filter P (proximity_log params msg g f) = [].
Proof.
  intros H1 H2. unfold proximity_log.
  apply filter_flat_map_none. intros part Hp.
  apply filter_flat_map_none. intros i Hi. apply in_seq in Hi.
  rewrite filter_proximity_events, H1, H2 by (auto; lia).
  destruct (distance_at params msg g f part i) as [ d | e ];
    [ now destruct (d <? 0.1) | reflexivity ].
Qed.

(** A filter that selects no force channel and no wrench channel
    empties the force log. *)
Lemma filter_force_log_none :
  (forall part i, sel (part, "force", Some i) = false) ->
  (forall part, sel (part, "wrench", None) = false) ->
  filter P (force_log params msg g f) = [].
Proof.
  intros H1 H2. unfold force_log.
  apply filter_flat_map_none. intros part Hp.
  unfold board_events. rewrite filter_app, filter_board_event, H2 by auto.
  rewrite filter_flat_map_none; [ reflexivity | ].
  intros i Hi. apply in_seq in Hi.
  now rewrite filter_force_events, H1 by (auto; lia).
Qed.

End KeyFilter.

Lemma on_topic_key (k0 : channel_key) :
  In k0 all_keys ->
  forall k m, In k all_keys ->
    on_topic (key_topic g f k0) (mkEvent (key_topic g f k) m) = key_eqb k k0.
Proof.
  intros H0 k m Hk. unfold on_topic. cbn [ev_topic].
  now apply key_topic_eqb.
Qed.

(** *** One channel at a time *)

Ltac other_kind :=
  intros; apply key_eqb_kind; discriminate.

(** The log of a sample on a proximity topic of sensor [i0] of board
    [p0]. *)
Lemma sample_log_proximity (kind : string) (p0 : string) (i0 : nat) :
  In kind ["proximity_distance"; "proximity_cloud"] ->
  In p0 parts -> i0 < sensor_num p0 ->
  filter (on_topic (sensor_topic g f p0 kind i0)) (sample_log params msg g f)
  = match distance_at params msg g f p0 i0 with
    | Ok d =>
        if d <? 0.1 then
          (if String.eqb kind "proximity_distance"
           then [distance_event g f p0 i0 d] else [])
          ++ (if String.eqb kind "proximity_cloud"
              then [cloud_event msg g f p0 i0 d] else [])
        else []
    | Raise _ => []
    end.
Proof.
  intros Hk Hp0 Hi0.
  assert (Hkey : In (p0, kind, Some i0) all_keys).
  { apply sensor_key_in; auto. cbn in *. intuition auto. }
  change (sensor_topic g f p0 kind i0)
    with (key_topic g f (p0, kind, Some i0)).
  pose proof (on_topic_key _ Hkey) as PS.
  unfold sample_log. rewrite !filter_app.
  rewrite (filter_force_log_none _ _ PS), (filter_imu_event _ _ PS).
  2, 3: destruct Hk as [<- | [<- | []]]; other_kind.
  rewrite (key_eqb_kind "pfs_a_front" "imu" p0 kind None (Some i0))
    by (destruct Hk as [<- | [<- | []]]; discriminate).
  rewrite !app_nil_r. unfold proximity_log.
  rewrite (filter_flat_map_select _ _ parts p0 parts_NoDup Hp0).
  - rewrite (filter_flat_map_select _ _ (range (sensor_num p0)) i0).
    + rewrite (filter_proximity_events _ _ PS) by auto.
      unfold key_eqb. rewrite !String.eqb_refl, Nat.eqb_refl.
      cbn [andb]. rewrite !andb_true_r.
      now rewrite (String.eqb_sym "proximity_distance"),
        (String.eqb_sym "proximity_cloud").
    + apply seq_NoDup.
    + apply in_seq. lia.
    + intros i Hi Hne. apply in_seq in Hi.
      rewrite (filter_proximity_events _ _ PS) by (auto; lia).
      rewrite !(key_eqb_index _ _ _ _ _ _ Hne).
      destruct (distance_at params msg g f p0 i) as [ d | e ];
        [ now destruct (d <? 0.1) | reflexivity ].
  - intros part Hp Hne. apply filter_flat_map_none.
    intros i Hi. apply in_seq in Hi.
    rewrite (filter_proximity_events _ _ PS) by (auto; lia).
    rewrite !(key_eqb_part _ _ _ _ _ _ Hne).
    destruct (distance_at params msg g f part i) as [ d | e ];
      [ now destruct (d <? 0.1) | reflexivity ].
Qed.

(** The log of a sample on the force topic of sensor [i0] of board
    [p0]. *)
Lemma sample_log_force (p0 : string) (i0 : nat) :
  In p0 parts -> i0 < sensor_num p0 ->
  filter (on_topic (sensor_topic g f p0 "force" i0))
    (sample_log params msg g f)
  = force_events params msg g f p0 i0.
Proof.
  intros Hp0 Hi0.
  assert (Hkey : In (p0, "force", Some i0) all_keys)
    by (apply sensor_key_in; cbn; auto).
  change (sensor_topic g f p0 "force" i0)
    with (key_topic g f (p0, "force", Some i0)).
  pose proof (on_topic_key _ Hkey) as PS.
  unfold sample_log. rewrite !filter_app.
  rewrite (filter_proximity_log_none _ _ PS), (filter_imu_event _ _ PS).
  2, 3: other_kind.
  rewrite (key_eqb_kind "pfs_a_front" "imu" p0 "force" None (Some i0))
    by discriminate.
  rewrite app_nil_r, app_nil_l. unfold force_log.
  rewrite (filter_flat_map_select _ _ parts p0 parts_NoDup Hp0).
  - unfold board_events at 1.
    rewrite filter_app, (filter_board_event _ _ PS) by auto.
    rewrite (key_eqb_kind p0 "wrench" p0 "force" None (Some i0))
      by discriminate.
    rewrite app_nil_r.
    rewrite (filter_flat_map_select _ _ (range (sensor_num p0)) i0).
    + rewrite (filter_force_events _ _ PS) by auto.
      now rewrite key_eqb_refl.
    + apply seq_NoDup.
    + apply in_seq. lia.
    + intros i Hi Hne. apply in_seq in Hi.
      rewrite (filter_force_events _ _ PS) by (auto; lia).
      now rewrite (key_eqb_index _ _ _ _ _ _ Hne).
  - intros part Hp Hne. unfold board_events.
    rewrite filter_app, (filter_board_event _ _ PS) by auto.
    rewrite (key_eqb_part _ _ _ _ _ _ Hne), app_nil_r.
    apply filter_flat_map_none. intros i Hi. apply in_seq in Hi.
    rewrite (filter_force_events _ _ PS) by (auto; lia).
    now rewrite (key_eqb_part _ _ _ _ _ _ Hne).
Qed.

Lemma board_force_topics_keys (p0 : string) :
  board_force_topics g f p0 = map (key_topic g f) (board_force_keys p0).
Proof.
  unfold board_force_topics, board_force_keys.
  now rewrite map_app, map_map.
Qed.

Lemma on_board_force_key (p0 : string) :
  In p0 parts ->
  forall k m, In k all_keys ->
    on_board_force g f p0 (mkEvent (key_topic g f k) m)
    = existsb (key_eqb k) (board_force_keys p0).
Proof.
  intros Hp0 k m Hk. unfold on_board_force, str_in. cbn [ev_topic].
  rewrite board_force_topics_keys.
  pose proof (board_force_keys_in p0) as Hin.
  induction (board_force_keys p0) as [ | k' ks IH ]; cbn [map existsb];
    [ reflexivity | ].
  rewrite key_topic_eqb by (auto using in_eq).
  rewrite IH; [ reflexivity | ].
  intros k'' Hp Hk''. apply Hin; [ exact Hp | now right ].
Qed.

(** The log of a sample on the force topics of board [p0]: the wrenches
    of its sensors in the order of their local indices, then the wrench
    of the board. *)
Lemma sample_log_board (p0 : string) :
  In p0 parts ->
  filter (on_board_force g f p0) (sample_log params msg g f)
  = board_events params msg g f p0.
Proof.
  intros Hp0.
  pose proof (on_board_force_key p0 Hp0) as PS.
  unfold sample_log. rewrite !filter_app.
  rewrite (filter_proximity_log_none _ _ PS), (filter_imu_event _ _ PS).
  2, 3: intros; apply board_force_keys_kind; discriminate.
  rewrite board_force_keys_kind by discriminate.
  rewrite app_nil_r, app_nil_l. unfold force_log.
  rewrite (filter_flat_map_select _ _ parts p0 parts_NoDup Hp0).
  - unfold board_events.
    rewrite filter_app, (filter_board_event _ _ PS) by auto.
    rewrite board_force_keys_own
      by (unfold board_force_keys; apply in_or_app; right; cbn; auto).
    f_equal. apply filter_flat_map_all.
    intros i Hi. rewrite (filter_force_events _ _ PS).
    + rewrite board_force_keys_own; [ reflexivity | ].
      unfold board_force_keys. apply in_or_app. left.
      now apply (in_map (fun j => (p0, "force", Some j))).
    + exact Hp0.
    + apply in_seq in Hi. lia.
  - intros part Hp Hne. unfold board_events.
    rewrite filter_app, (filter_board_event _ _ PS) by auto.
    rewrite (board_force_keys_other _ _ _ _ Hne), app_nil_r.
    apply filter_flat_map_none. intros i Hi. apply in_seq in Hi.
    rewrite (filter_force_events _ _ PS) by (auto; lia).
    now rewrite (board_force_keys_other _ _ _ _ Hne).
Qed.

(** The IMU messages of the log of a sample. *)
Lemma sample_log_imu :
  filter is_imu (sample_log params msg g f)
  = [imu_event g f (scaled_imu (imu msg))].
Proof.
  unfold sample_log. rewrite !filter_app.
  assert (H1 : filter is_imu (proximity_log params msg g f) = []).
  { unfold proximity_log. apply filter_flat_map_none. intros part _.
    apply filter_flat_map_none. intros i _. unfold proximity_events.
    destruct (distance_at params msg g f part i) as [ d | e ];
      [ now destruct (d <? 0.1) | reflexivity ]. }
  assert (H2 : filter is_imu (force_log params msg g f) = []).
  { unfold force_log. apply filter_flat_map_none. intros part _.
    unfold board_events. rewrite filter_app.
    rewrite filter_flat_map_none; [ reflexivity | ].
    intros i _. reflexivity. }
  now rewrite H1, H2.
Qed.

End Loops.

(** ** The dispatch of one sample *)

Lemma distance_at_uncalibrated (params : pfs_params_t)
    (msg : PR2FingertipSensor) (g f part : string) (i index : nat)
    (a d : float) :
  sensor_index part i = Ok index ->
  param params g f "proximity_a" index = Ok a ->
  (a =? 0)%float = true ->
  distance_at params msg g f part i = Ok d ->
  d = infinity.
Proof.
  intros Hi Ha H0. unfold distance_at, proximity_to_distance.
  change (pfs_params (init params)) with params.
  rewrite Hi. cbn [rbind].
  destruct (list_get (proximity msg) index); cbn [rbind]; [ | discriminate ].
  rewrite Ha. cbn [rbind].
  destruct (param params g f "proximity_b" index); cbn [rbind];
    [ | discriminate ].
  rewrite H0. now intros [= <-].
Qed.

(** C2. When a sample is processed to the end, the log holds on the
    distance topic of a sensor exactly one message, the computed distance,
    if that distance is below 0.1 and none otherwise; likewise on the cloud
    topic of the sensor, the message being the cloud of the single point
    (0, 0, distance); for a sensor whose [proximity_a] is zero the distance
    is +infinity and both topics stay empty. *)
Theorem publish_gate (params : pfs_params_t) (msg msg' : PR2FingertipSensor)
    (g f : string) (log : list event) (part : string) (i : nat) :
  In g grippers -> In f fingertips ->
  cb (init params) msg (g, f) = (log, Ok msg') ->
  In part parts -> i < sensor_num part ->
  exists d,
    distance_at params msg g f part i = Ok d
    /\ filter (on_topic (sensor_topic g f part "proximity_distance" i)) log
       = (if (d <? 0.1)%float then [distance_event g f part i d] else [])
    /\ filter (on_topic (sensor_topic g f part "proximity_cloud" i)) log
       = (if (d <? 0.1)%float then [cloud_event msg g f part i d] else [])
    /\ forall index a,
        sensor_index part i = Ok index ->
        param params g f "proximity_a" index = Ok a ->
        (a =? 0)%float = true ->
        d = infinity
        /\ filter (on_topic (sensor_topic g f part "proximity_distance" i)) log
           = []
        /\ filter (on_topic (sensor_topic g f part "proximity_cloud" i)) log
           = [].
Proof.
  intros Hg Hf Hrun Hp Hi.
  destruct (cb_log params msg g f Hg Hf log msg' Hrun) as (-> & _ & Hall).
  destruct (Hall part i Hp Hi) as [[d Hd] _].
  exists d. split; [ exact Hd | ].
  assert (H1 : filter (on_topic (sensor_topic g f part "proximity_distance" i))
                 (sample_log params msg g f)
               = (if (d <? 0.1)%float then [distance_event g f part i d]
                  else [])).
  { rewrite sample_log_proximity by (cbn; auto).
    rewrite Hd.
    change (String.eqb "proximity_distance" "proximity_distance") with true.
    change (String.eqb "proximity_distance" "proximity_cloud") with false.
    now rewrite app_nil_r. }
  assert (H2 : filter (on_topic (sensor_topic g f part "proximity_cloud" i))
                 (sample_log params msg g f)
               = (if (d <? 0.1)%float then [cloud_event msg g f part i d]
                  else [])).
  { rewrite sample_log_proximity by (cbn; auto).
    rewrite Hd.
    change (String.eqb "proximity_cloud" "proximity_distance") with false.
    change (String.eqb "proximity_cloud" "proximity_cloud") with true.
    reflexivity. }
  split; [ exact H1 | ]. split; [ exact H2 | ].
  intros index a Hidx Ha H0.
  assert (d = infinity) as ->
    by apply (distance_at_uncalibrated params msg g f part i index a d
                Hidx Ha H0 Hd).
  rewrite H1, H2. repeat split.
Qed.

Lemma publish_gate_witness :
  exists d,
    distance_at Sample.params Sample.msg "l_gripper" "l_fingertip"
      "pfs_a_front" 0 = Ok d
    /\ filter (on_topic (sensor_topic "l_gripper" "l_fingertip" "pfs_a_front"
                           "proximity_distance" 0)) Sample.log
       = (if (d <? 0.1)%float
          then [distance_event "l_gripper" "l_fingertip" "pfs_a_front" 0 d]
          else [])
    /\ filter (on_topic (sensor_topic "l_gripper" "l_fingertip" "pfs_a_front"
                           "proximity_cloud" 0)) Sample.log
       = (if (d <? 0.1)%float
          then [cloud_event Sample.msg "l_gripper" "l_fingertip"
                  "pfs_a_front" 0 d]
          else [])
    /\ forall index a,
        sensor_index "pfs_a_front" 0 = Ok index ->
        param Sample.params "l_gripper" "l_fingertip" "proximity_a" index
          = Ok a ->
        (a =? 0)%float = true ->
        d = infinity
        /\ filter (on_topic (sensor_topic "l_gripper" "l_fingertip"
                               "pfs_a_front" "proximity_distance" 0))
             Sample.log = []
        /\ filter (on_topic (sensor_topic "l_gripper" "l_fingertip"
                               "pfs_a_front" "proximity_cloud" 0))
             Sample.log = [].
Proof.
  apply (publish_gate Sample.params Sample.msg (scaled_msg Sample.msg)
           "l_gripper" "l_fingertip" Sample.log "pfs_a_front" 0).
  - cbn. auto.
  - cbn. auto.
  - vm_compute. reflexivity.
  - cbn. auto.
  - cbn. lia.
Defined.

(** The fingertip whose proximity sensors are not calibrated puts out no
    distance and no cloud at all. *)
Example uncalibrated_fingertip_silent :
  filter
    (fun e =>
       match ev_msg e with
       | MFloat32 _ | MPointCloud2 _ => true
       | _ => false
       end)
    (fst (cb Sample.node Sample.msg ("r_gripper", "r_fingertip")))
  = []
  /\ snd (cb Sample.node Sample.msg ("r_gripper", "r_fingertip"))
     = Ok (scaled_msg Sample.msg).
Proof. split; vm_compute; reflexivity. Qed.

Lemma force_at_value (params : pfs_params_t) (msg : PR2FingertipSensor)
    (g f part : string) (i : nat) (z : float) :
  force_at params msg g f part i = Ok z ->
  exists index raw preload sensitivity,
    sensor_index part i = Ok index
    /\ param params g f "preload" index = Ok preload
    /\ param params g f "sensitivity" index = Ok sensitivity
    /\ list_get (force msg) index = Ok raw
    /\ (sensitivity =? 0)%float = false
    /\ z = (0.105 * (raw - preload) / sensitivity)%float.
Proof.
  unfold force_at.
  destruct (sensor_index part i) as [ index | ] eqn:E1; cbn [rbind];
    [ | discriminate ].
  destruct (param params g f "preload" index) as [ preload | ] eqn:E2;
    cbn [rbind];
    [ | discriminate ].
  destruct (param params g f "sensitivity" index) as [ sensitivity | ] eqn:E3;
    cbn [rbind]; [ | discriminate ].
  destruct (list_get (force msg) index) as [ raw | ] eqn:E4; cbn [rbind];
    [ | discriminate ].
  unfold Py.div. destruct (sensitivity =? 0)%float eqn:E; [ discriminate | ].
  intros [= <-]. exists index, raw, preload, sensitivity.
  repeat split; assumption.
Qed.

(** C3. When a sample is processed to the end, the log holds on the force
    topic of every sensor exactly one wrench, whatever the reading; its
    force z-component is [0.105 * (raw - preload) / sensitivity], with the
    reading and the coefficients taken at the global index of the sensor;
    it is stamped with the sample's time and framed with the sensor's frame
    id. *)
Theorem force_wrench (params : pfs_params_t) (msg msg' : PR2FingertipSensor)
    (g f : string) (log : list event) (part : string) (i : nat) :
  In g grippers -> In f fingertips ->
  cb (init params) msg (g, f) = (log, Ok msg') ->
  In part parts -> i < sensor_num part ->
  exists index raw preload sensitivity,
    sensor_index part i = Ok index
    /\ param params g f "preload" index = Ok preload
    /\ param params g f "sensitivity" index = Ok sensitivity
    /\ list_get (force msg) index = Ok raw
    /\ filter (on_topic (sensor_topic g f part "force" i)) log
       = [force_event msg g f part i
            (0.105 * (raw - preload) / sensitivity)%float].
Proof.
  intros Hg Hf Hrun Hp Hi.
  destruct (cb_log params msg g f Hg Hf log msg' Hrun) as (-> & _ & Hall).
  destruct (Hall part i Hp Hi) as [_ [z Hz]].
  destruct (force_at_value params msg g f part i z Hz)
    as (index & raw & preload & sensitivity & H1 & H2 & H3 & H4 & _ & ->).
  exists index, raw, preload, sensitivity.
  repeat (split; [ assumption | ]).
  rewrite sample_log_force by assumption.
  unfold force_events. now rewrite Hz.
Qed.

Lemma force_wrench_witness :
  exists index raw preload sensitivity,
    sensor_index "pfs_b_top" 2 = Ok index
    /\ param Sample.params "l_gripper" "l_fingertip" "preload" index
       = Ok preload
    /\ param Sample.params "l_gripper" "l_fingertip" "sensitivity" index
       = Ok sensitivity
    /\ list_get (force Sample.msg) index = Ok raw
    /\ filter (on_topic (sensor_topic "l_gripper" "l_fingertip" "pfs_b_top"
                           "force" 2)) Sample.log
       = [force_event Sample.msg "l_gripper" "l_fingertip" "pfs_b_top" 2
            (0.105 * (raw - preload) / sensitivity)%float].
Proof.
  apply (force_wrench Sample.params Sample.msg (scaled_msg Sample.msg)
           "l_gripper" "l_fingertip" Sample.log "pfs_b_top" 2).
  - cbn. auto.
  - cbn. auto.
  - vm_compute. reflexivity.
  - cbn. auto.
  - cbn. lia.
Defined.

(** The spec's worked value: raw = 2000, preload = 500 and sensitivity =
    3.7 give about 42.57. *)
Example force_worked :
  (42.567 <? 0.105 * (2000 - 500) / 3.7)%float = true
  /\ (0.105 * (2000 - 500) / 3.7 <? 42.568)%float = true
  /\ filter (on_topic (sensor_topic "l_gripper" "l_fingertip" "pfs_b_top"
                         "force" 2)) Sample.log
     = [force_event Sample.msg "l_gripper" "l_fingertip" "pfs_b_top" 2
          (0.105 * (2000 - 500) / 3.7)%float].
Proof. repeat split; vm_compute; reflexivity. Qed.

Lemma forces_of_board (h : nat -> result float) (l : list nat) :
  (forall i, In i l -> exists z, h i = Ok z) ->
  Forall2 (fun i z => h i = Ok z) l (map (fun i => value_or_zero (h i)) l).
Proof.
  induction l as [ | i l IH ]; intros H; cbn; constructor.
  - destruct (H i (or_introl eq_refl)) as [z ->]. reflexivity.
  - apply IH. intros j Hj. apply H. now right.
Qed.

Lemma force_events_of_board (params : pfs_params_t) (msg : PR2FingertipSensor)
    (g f part : string) (l : list nat) :
  flat_map (force_events params msg g f part) l
  = map (fun iz => force_event msg g f part (fst iz) (snd iz))
      (combine l
         (map (fun i => value_or_zero (force_at params msg g f part i)) l)).
Proof.
  induction l as [ | i l IH ]; cbn; [ reflexivity | ].
  now rewrite <- IH.
Qed.

(** C4. When a sample is processed to the end, the log holds on the force
    topics of a board the wrenches of its sensors, in the order of their
    local indices, and after them exactly one wrench of the board; the
    force z-component of that one is the sum, started at 0.0 and taken in
    that order, of the forces of the sensors each divided by the sensor
    count; it is stamped with the sample's time and its frame id is
    [/<gripper>_<fingertip>_<board>], without a local index. *)
Theorem board_wrench (params : pfs_params_t) (msg msg' : PR2FingertipSensor)
    (g f : string) (log : list event) (part : string) :
  In g grippers -> In f fingertips ->
  cb (init params) msg (g, f) = (log, Ok msg') ->
  In part parts ->
  exists zs,
    Forall2 (fun i z => force_at params msg g f part i = Ok z)
      (range (sensor_num part)) zs
    /\ filter (on_board_force g f part) log
       = map (fun iz => force_event msg g f part (fst iz) (snd iz))
           (combine (range (sensor_num part)) zs)
         ++ [mkEvent (board_topic g f part "wrench")
               (MWrenchStamped
                  (mkWrenchStamped
                     (mkHeader 0 (stamp (header msg))
                        ("/" ++ g ++ "_" ++ f ++ "_" ++ part)%string)
                     (mkWrench
                        (mkVector3 0 0 (average (sensor_num part) zs))
                        (mkVector3 0 0 0))))].
Proof.
  intros Hg Hf Hrun Hp.
  destruct (cb_log params msg g f Hg Hf log msg' Hrun) as (-> & _ & Hall).
  exists (board_forces params msg g f part). split.
  - apply forces_of_board. intros i Hi. apply in_seq in Hi.
    apply (Hall part i Hp). lia.
  - rewrite sample_log_board by assumption.
    unfold board_events. now rewrite force_events_of_board.
Qed.

Lemma board_wrench_witness :
  exists zs,
    Forall2
      (fun i z =>
         force_at Sample.params Sample.msg "l_gripper" "l_fingertip"
           "pfs_b_back" i = Ok z)
      (range (sensor_num "pfs_b_back")) zs
    /\ filter (on_board_force "l_gripper" "l_fingertip" "pfs_b_back")
         Sample.log
       = map (fun iz =>
                force_event Sample.msg "l_gripper" "l_fingertip" "pfs_b_back"
                  (fst iz) (snd iz))
           (combine (range (sensor_num "pfs_b_back")) zs)
         ++ [mkEvent
               (board_topic "l_gripper" "l_fingertip" "pfs_b_back" "wrench")
               (MWrenchStamped
                  (mkWrenchStamped
                     (mkHeader 0 (stamp (header Sample.msg))
                        ("/" ++ "l_gripper" ++ "_" ++ "l_fingertip" ++ "_"
                         ++ "pfs_b_back")%string)
                     (mkWrench
                        (mkVector3 0 0
                           (average (sensor_num "pfs_b_back") zs))
                        (mkVector3 0 0 0))))].
Proof.
  apply (board_wrench Sample.params Sample.msg (scaled_msg Sample.msg)
           "l_gripper" "l_fingertip" Sample.log "pfs_b_back").
  - cbn. auto.
  - cbn. auto.
  - vm_compute. reflexivity.
  - cbn. auto.
Defined.

(** The spec's worked value: on a board of 4 sensors the forces 1, 2, 3
    and 4 average to 2.5. *)
Example average_worked : average 4 [1; 2; 3; 4]%float = 2.5%float.
Proof. vm_compute. reflexivity. Qed.

(** C6. When a sample is processed to the end, the log holds exactly one
    IMU message; it went out on the topic of the front board, and it is the
    sample's IMU reading with the angular velocity and the linear
    acceleration multiplied by 0.001 component by component, the rest of
    the reading as it came. *)
Theorem imu_once (params : pfs_params_t) (msg msg' : PR2FingertipSensor)
    (g f : string) (log : list event) :
  In g grippers -> In f fingertips ->
  cb (init params) msg (g, f) = (log, Ok msg') ->
  exists m,
    filter is_imu log
    = [mkEvent ("/pfs/" ++ g ++ "/" ++ f ++ "/" ++ "pfs_a_front" ++ "/"
                ++ "imu")%string (MImu m)]
    /\ angular_velocity m
       = (let v := angular_velocity (imu msg) in
          mkVector3 (vx v * 0.001) (vy v * 0.001) (vz v * 0.001))%float
    /\ linear_acceleration m
       = (let v := linear_acceleration (imu msg) in
          mkVector3 (vx v * 0.001) (vy v * 0.001) (vz v * 0.001))%float
    /\ imu_header m = imu_header (imu msg)
    /\ orientation m = orientation (imu msg)
    /\ orientation_covariance m = orientation_covariance (imu msg)
    /\ angular_velocity_covariance m = angular_velocity_covariance (imu msg)
    /\ linear_acceleration_covariance m
       = linear_acceleration_covariance (imu msg).
Proof.
  intros Hg Hf Hrun.
  destruct (cb_log params msg g f Hg Hf log msg' Hrun) as (-> & _ & _).
  exists (scaled_imu (imu msg)). rewrite sample_log_imu.
  repeat split.
Qed.

Lemma imu_once_witness :
  exists m,
    filter is_imu Sample.log
    = [mkEvent ("/pfs/" ++ "l_gripper" ++ "/" ++ "l_fingertip" ++ "/"
                ++ "pfs_a_front" ++ "/" ++ "imu")%string (MImu m)]
    /\ angular_velocity m
       = (let v := angular_velocity (imu Sample.msg) in
          mkVector3 (vx v * 0.001) (vy v * 0.001) (vz v * 0.001))%float
    /\ linear_acceleration m
       = (let v := linear_acceleration (imu Sample.msg) in
          mkVector3 (vx v * 0.001) (vy v * 0.001) (vz v * 0.001))%float
    /\ imu_header m = imu_header (imu Sample.msg)
    /\ orientation m = orientation (imu Sample.msg)
    /\ orientation_covariance m = orientation_covariance (imu Sample.msg)
    /\ angular_velocity_covariance m
       = angular_velocity_covariance (imu Sample.msg)
    /\ linear_acceleration_covariance m
       = linear_acceleration_covariance (imu Sample.msg).
Proof.
  apply (imu_once Sample.params Sample.msg (scaled_msg Sample.msg)
           "l_gripper" "l_fingertip" Sample.log).
  - cbn. auto.
  - cbn. auto.
  - vm_compute. reflexivity.
Defined.

(** C10. Processing a sample writes into the sample: when the callback
    returns, the angular velocity and the linear acceleration of the
    message's IMU reading hold the values scaled by 0.001 in place of the
    raw ones, and the header, the proximity readings, the force readings
    and the rest of the IMU reading are as they came; the callback run
    again on that same message runs to the end as well and scales the two
    vectors once more, in the message and in the IMU message it puts
    out. *)
Theorem cb_scales_in_place (params : pfs_params_t)
    (msg msg' : PR2FingertipSensor) (g f : string) (log : list event) :
  In g grippers -> In f fingertips ->
  cb (init params) msg (g, f) = (log, Ok msg') ->
  angular_velocity (imu msg') = scale3 (angular_velocity (imu msg))
  /\ linear_acceleration (imu msg') = scale3 (linear_acceleration (imu msg))
  /\ proximity msg' = proximity msg
  /\ force msg' = force msg
  /\ header msg' = header msg
  /\ imu_header (imu msg') = imu_header (imu msg)
  /\ orientation (imu msg') = orientation (imu msg)
  /\ exists log2 msg2,
      cb (init params) msg' (g, f) = (log2, Ok msg2)
      /\ angular_velocity (imu msg2)
         = scale3 (scale3 (angular_velocity (imu msg)))
      /\ linear_acceleration (imu msg2)
         = scale3 (scale3 (linear_acceleration (imu msg)))
      /\ filter is_imu log2
         = [imu_event g f (scaled_imu (scaled_imu (imu msg)))].
Proof.
  intros Hg Hf Hrun.
  destruct (cb_log params msg g f Hg Hf log msg' Hrun) as (-> & -> & _).
  do 7 (split; [ reflexivity | ]).
  unfold cb in Hrun. cbn [fst snd] in Hrun.
  apply bind_Ok in Hrun as (l1 & [] & l2 & H1 & Hrun & _).
  apply bind_Ok in Hrun as (l3 & [] & l4 & H2 & _ & _).
  assert (Hrun2 : cb (init params) (scaled_msg msg) (g, f)
                  = (l1 ++ l3 ++ [imu_event g f
                                    (scaled_imu (scaled_imu (imu msg)))],
                     Ok (scaled_msg (scaled_msg msg)))).
  { unfold cb. cbn [fst snd].
    change (publish_proximity (init params) (scaled_msg msg) g f)
      with (publish_proximity (init params) msg g f).
    change (publish_force (init params) (scaled_msg msg) g f)
      with (publish_force (init params) msg g f).
    rewrite H1, H2, (publish_imu_log params (scaled_msg msg) g f Hg Hf).
    reflexivity. }
  exists (l1 ++ l3 ++ [imu_event g f (scaled_imu (scaled_imu (imu msg)))]),
    (scaled_msg (scaled_msg msg)).
  split; [ exact Hrun2 | ]. split; [ reflexivity | ]. split; [ reflexivity | ].
  destruct (cb_log params (scaled_msg msg) g f Hg Hf _ _ Hrun2) as (-> & _ & _).
  apply sample_log_imu.
Qed.

Lemma cb_scales_in_place_witness :
  angular_velocity (imu (scaled_msg Sample.msg))
  = scale3 (angular_velocity (imu Sample.msg))
  /\ linear_acceleration (imu (scaled_msg Sample.msg))
     = scale3 (linear_acceleration (imu Sample.msg))
  /\ proximity (scaled_msg Sample.msg) = proximity Sample.msg
  /\ force (scaled_msg Sample.msg) = force Sample.msg
  /\ header (scaled_msg Sample.msg) = header Sample.msg
  /\ imu_header (imu (scaled_msg Sample.msg)) = imu_header (imu Sample.msg)
  /\ orientation (imu (scaled_msg Sample.msg)) = orientation (imu Sample.msg)
  /\ exists log2 msg2,
      cb (init Sample.params) (scaled_msg Sample.msg)
        ("l_gripper", "l_fingertip") = (log2, Ok msg2)
      /\ angular_velocity (imu msg2)
         = scale3 (scale3 (angular_velocity (imu Sample.msg)))
      /\ linear_acceleration (imu msg2)
         = scale3 (scale3 (linear_acceleration (imu Sample.msg)))
      /\ filter is_imu log2
         = [imu_event "l_gripper" "l_fingertip"
              (scaled_imu (scaled_imu (imu Sample.msg)))].
Proof.
  apply (cb_scales_in_place Sample.params Sample.msg (scaled_msg Sample.msg)
           "l_gripper" "l_fingertip" Sample.log).
  - cbn. auto.
  - cbn. auto.
  - vm_compute. reflexivity.
Defined.

(** On the sample, the angular velocity (1000, 2000, 3000) leaves the
    first run as about (1, 2, 3) and a second run as about
    (0.001, 0.002, 0.003): the scaling is applied anew each time. *)
Example rescaled_twice :
  angular_velocity (imu (scaled_msg Sample.msg)) = mkVector3 1 2 3
  /\ snd (cb Sample.node (scaled_msg Sample.msg) ("l_gripper", "l_fingertip"))
     = Ok (scaled_msg (scaled_msg Sample.msg))
  /\ angular_velocity (imu (scaled_msg (scaled_msg Sample.msg)))
     = mkVector3 0.001 0.002 0.003.
Proof. repeat split; vm_compute; reflexivity. Qed.

(** ** Timestamps *)

Lemma Forall_bind {A B : Type} (Q : event -> Prop) (m : M A) (k : A -> M B) :
  Forall Q (fst m) ->
  (forall a, snd m = Ok a -> Forall Q (fst (k a))) ->
  Forall Q (fst (bind m k)).
Proof.
  destruct m as [l [a | e]]; cbn; intros H1 H2; [ | exact H1 ].
  specialize (H2 a eq_refl). destruct (k a) as [l' r]. cbn in *.
  now apply Forall_app.
Qed.

Ltac run_step :=
  repeat match goal with
    | |- context [bind (lift ?r) _] =>
        destruct r; [ rewrite bind_lift_Ok | rewrite bind_lift_Raise ]
    | |- context [bind (publish _ _) _] => rewrite bind_publish
    | |- context [if ?c then _ else _] => destruct c
    end.

Section Carries.

Variable self : ConvertPFS.
Variable msg : PR2FingertipSensor.
Variables g f : string.

Lemma proximity_step_carries (part base : string) (i : nat) (hd : Header) :
  header_inv msg hd ->
  Forall (carries msg) (fst (proximity_step self msg g f part base i hd))
  /\ forall hd',
      snd (proximity_step self msg g f part base i hd) = Ok hd' ->
      header_inv msg hd'.
Proof.
  intros [H1 H2]. unfold proximity_step. run_step; cbn;
    (split; [ repeat constructor; assumption
            | try discriminate; intros hd' [= <-]; split; assumption ]).
Qed.

Lemma force_step_carries (part base : string) (n i : nat)
    (st : Header * float) :
  header_inv msg (fst st) ->
  Forall (carries msg) (fst (force_step self msg g f part base n i st))
  /\ forall st',
      snd (force_step self msg g f part base n i st) = Ok st' ->
      header_inv msg (fst st').
Proof.
  destruct st as [hd avg]. intros [H1 H2]. unfold force_step.
  run_step; cbn;
    (split; [ repeat constructor; assumption
            | try discriminate; intros st' [= <-]; split; assumption ]).
Qed.

Lemma publish_proximity_carries :
  Forall (carries msg) (fst (publish_proximity self msg g f)).
Proof.
  unfold publish_proximity. apply Forall_bind; [ | constructor ].
  apply (for_each_Forall _ (header_inv msg)).
  - intros part hd Hinv.
    apply (for_each_Forall _ (header_inv msg)); [ | exact Hinv ].
    intros i hd' Hinv'. now apply proximity_step_carries.
  - split; reflexivity.
Qed.

Lemma publish_force_carries :
  Forall (carries msg) (fst (publish_force self msg g f)).
Proof.
  unfold publish_force. apply Forall_bind; [ | constructor ].
  apply (for_each_Forall _ (header_inv msg)).
  - intros part hd Hinv.
    pose proof (for_each_Forall
                  (force_step self msg g f part
                     ("/" ++ g ++ "_" ++ f ++ "_" ++ part)%string
                     (sensor_num part))
                  (fun st => header_inv msg (fst st)) (carries msg)
                  (range (sensor_num part))
                  (fun i st H => force_step_carries part _ _ i st H)
                  (hd, 0%float) Hinv) as [HQ Hnext].
    destruct (for_each _ _ _) as [l [[hd2 avg] | e]]; cbn in *.
    + destruct (Hnext _ eq_refl) as [H1 H2]. cbn [fst] in H1, H2.
      destruct (pub_one self g f part "wrench"); cbn;
        (split; [ apply Forall_app; split;
                  [ exact HQ | repeat constructor; assumption ]
                | try discriminate; intros hd' [= <-]; split; assumption ]).
    + split; [ exact HQ | discriminate ].
  - split; reflexivity.
Qed.

Lemma publish_imu_carries :
  Forall (carries msg) (fst (publish_imu self msg g f)).
Proof.
  unfold publish_imu. run_step; cbn; repeat constructor.
Qed.

Lemma cb_carries : Forall (carries msg) (fst (cb self msg (g, f))).
Proof.
  unfold cb. cbn [fst snd].
  apply Forall_bind; [ apply publish_proximity_carries | intros _ _ ].
  apply Forall_bind; [ apply publish_force_carries | intros _ _ ].
  apply publish_imu_carries.
Qed.

End Carries.

(** C7, as the spec states it, fails on the sample: the run reaches its
    end, the sample is stamped 5 s, and the log holds a distance, which has
    no timestamp at all, and the IMU message, which is stamped 7 s as the
    IMU reading of the sample was; so not every message of the log carries
    the sample's timestamp. *)
Lemma timestamp_counterexample :
  Sample.run = (Sample.log, Ok (scaled_msg Sample.msg))
  /\ stamp (header Sample.msg) = mkTime 5 0
  /\ (exists e,
        In e Sample.log
        /\ ev_topic e
           = "/pfs/l_gripper/l_fingertip/pfs_a_front/proximity_distance/0"
        /\ stamp_of (ev_msg e) = None)
  /\ (exists e,
        In e Sample.log
        /\ ev_topic e = "/pfs/l_gripper/l_fingertip/pfs_a_front/imu"
        /\ stamp_of (ev_msg e) = Some (mkTime 7 0))
  /\ ~ Forall
         (fun e => stamp_of (ev_msg e) = Some (stamp (header Sample.msg)))
         Sample.log.
Proof.
  assert (Hd : In (distance_event "l_gripper" "l_fingertip" "pfs_a_front" 0
                     (PrimFloat.sqrt (0.01 / 5))%float) Sample.log).
  { apply (proj1 (filter_In
                    (on_topic
                       "/pfs/l_gripper/l_fingertip/pfs_a_front/proximity_distance/0")
                    _ Sample.log)).
    vm_compute. left. reflexivity. }
  assert (Hi : In (imu_event "l_gripper" "l_fingertip"
                     (scaled_imu (imu Sample.msg))) Sample.log).
  { apply (proj1 (filter_In is_imu _ Sample.log)).
    vm_compute. left. reflexivity. }
  split; [ vm_compute; reflexivity | ].
  split; [ reflexivity | ].
  split; [ eexists; split; [ exact Hd | split; reflexivity ] | ].
  split; [ eexists; split; [ exact Hi | split; reflexivity ] | ].
  intros H. rewrite Forall_forall in H. specialize (H _ Hd). discriminate H.
Qed.

(** C7, amended. Whatever the node and the sample, and whether the
    callback reaches its end or faults on the way, every cloud, every
    per-sensor wrench and every board wrench of the log is stamped with the
    time of the sample's header; a distance has no header and so carries no
    timestamp; the IMU message carries the header of the sample's IMU
    reading, as it came. *)
Theorem outputs_carry (self : ConvertPFS) (msg : PR2FingertipSensor)
    (g f : string) :
  Forall
    (fun e =>
       match ev_msg e with
       | MFloat32 _ => stamp_of (ev_msg e) = None
       | MPointCloud2 c => stamp (cloud_header c) = stamp (header msg)
       | MWrenchStamped w => stamp (wrench_header w) = stamp (header msg)
       | MImu m => imu_header m = imu_header (imu msg)
       end)
    (fst (cb self msg (g, f))).
Proof. exact (cb_carries self msg g f). Qed.

(** * Further properties *)

(** ** The registry as a whole *)

Lemma nodupb_NoDup (l : list string) : nodupb l = true -> NoDup l.
Proof.
  induction l as [ | x l IH ]; cbn; intros H; constructor.
  - apply andb_true_iff in H as [H _]. apply negb_true_iff in H.
    intros Hin. apply str_in_In in Hin. congruence.
  - apply IH. now apply andb_true_iff in H as [_ H].
Qed.

(** X1. [__init__] registers, for every gripper, fingertip and board, a
    publisher for each per-sensor kind at each local index below the sensor
    count, with the topic, the message type and the queue size of the
    source, and none at a local index from the sensor count on (the lookup
    is a [KeyError]); it registers a [wrench] publisher for every board and
    an [imu] publisher for the front board only: on the other boards the
    [imu] lookup is a [KeyError]. *)
Theorem registry_complete (params : pfs_params_t) (g f part : string) :
  In g grippers -> In f fingertips -> In part parts ->
  (forall sensor i,
      In sensor per_sensor_kinds -> i < sensor_num part ->
      exists p,
        pub_each (init params) g f part sensor i = Ok p
        /\ topic p = sensor_topic g f part sensor i
        /\ Some (pub_type p) = sensor_type sensor
        /\ queue_size p = 1)
  /\ (forall sensor i,
        In sensor per_sensor_kinds -> sensor_num part <= i ->
        pub_each (init params) g f part sensor i = Raise KeyError)
  /\ (exists p,
        pub_one (init params) g f part "wrench" = Ok p
        /\ topic p = board_topic g f part "wrench"
        /\ pub_type p = TWrenchStamped)
  /\ (part = "pfs_a_front" ->
      exists p,
        pub_one (init params) g f part "imu" = Ok p
        /\ topic p = board_topic g f part "imu"
        /\ pub_type p = TImu)
  /\ (part <> "pfs_a_front" ->
      pub_one (init params) g f part "imu" = Raise KeyError).
Proof.
  intros Hg Hf Hp.
  split; [ | split; [ | split; [ | split ] ] ].
  - intros sensor i Hs Hi.
    each_gripper Hg; each_fingertip Hf; each_part Hp;
      destruct Hs as [<- | [<- | [<- | []]]];
      each_index i Hi;
      (eexists; split; [ vm_compute; reflexivity | repeat split ]).
  - intros sensor i Hs Hi.
    each_gripper Hg; each_fingertip Hf; each_part Hp;
      destruct Hs as [<- | [<- | [<- | []]]];
      cbn in Hi;
      do 8 (try (destruct i as [ | i ]; [ try (exfalso; lia) | ]));
      try (exfalso; lia); reflexivity.
  - each_gripper Hg; each_fingertip Hf; each_part Hp;
      (eexists; split; [ vm_compute; reflexivity | repeat split ]).
  - intros ->.
    each_gripper Hg; each_fingertip Hf;
      (eexists; split; [ vm_compute; reflexivity | repeat split ]).
  - intros Hne.
    each_gripper Hg; each_fingertip Hf; each_part Hp;
      try contradiction; reflexivity.
Qed.

Lemma registry_complete_witness :
  (forall sensor i,
      In sensor per_sensor_kinds -> i < sensor_num "pfs_b_left" ->
      exists p,
        pub_each (init Sample.params) "l_gripper" "r_fingertip" "pfs_b_left"
          sensor i = Ok p
        /\ topic p
           = sensor_topic "l_gripper" "r_fingertip" "pfs_b_left" sensor i
        /\ Some (pub_type p) = sensor_type sensor
        /\ queue_size p = 1)
  /\ (forall sensor i,
        In sensor per_sensor_kinds -> sensor_num "pfs_b_left" <= i ->
        pub_each (init Sample.params) "l_gripper" "r_fingertip" "pfs_b_left"
          sensor i = Raise KeyError)
  /\ (exists p,
        pub_one (init Sample.params) "l_gripper" "r_fingertip" "pfs_b_left"
          "wrench" = Ok p
        /\ topic p
           = board_topic "l_gripper" "r_fingertip" "pfs_b_left" "wrench"
        /\ pub_type p = TWrenchStamped)
  /\ ("pfs_b_left" = "pfs_a_front" ->
      exists p,
        pub_one (init Sample.params) "l_gripper" "r_fingertip" "pfs_b_left"
          "imu" = Ok p
        /\ topic p = board_topic "l_gripper" "r_fingertip" "pfs_b_left" "imu"
        /\ pub_type p = TImu)
  /\ ("pfs_b_left" <> "pfs_a_front" ->
      pub_one (init Sample.params) "l_gripper" "r_fingertip" "pfs_b_left"
        "imu" = Raise KeyError).
Proof.
  apply (registry_complete Sample.params "l_gripper" "r_fingertip"
           "pfs_b_left"); cbn; auto.
Defined.

(** X2. The 312 publishers of [__init__] (78 for each of the four
    fingertips) have pairwise different topics; the node subscribes to the
    four topics [/pfs/<gripper>/<fingertip>], and publishes on none of
    them. *)
Theorem topics_distinct (params : pfs_params_t) :
  NoDup (topics (pub (init params)))
  /\ List.length (topics (pub (init params))) = 312
  /\ subscribers (init params)
     = ["/pfs/l_gripper/l_fingertip"; "/pfs/l_gripper/r_fingertip";
        "/pfs/r_gripper/l_fingertip"; "/pfs/r_gripper/r_fingertip"]
  /\ forall t,
      In t (subscribers (init params)) ->
      ~ In t (topics (pub (init params))).
Proof.
  split; [ apply nodupb_NoDup; vm_compute; reflexivity | ].
  split; [ vm_compute; reflexivity | ].
  split; [ reflexivity | ].
  intros t Ht Hin. apply str_in_In in Hin.
  destruct Ht as [<- | [<- | [<- | [<- | []]]]];
    vm_compute in Hin; discriminate Hin.
Qed.

(** ** The topology outside its domain *)

(** X3. [sensor_index] leaves its result unset, and so faults with
    [UnboundLocalError], exactly on a board name that is not one of the
    five, while [sensor_num] answers 4 on such a name; on the five boards
    [sensor_index] is the board's offset plus the local index whatever the
    local index is: there is no bounds check, and a local index at the
    sensor count or above lands in the range of a following board. *)
Theorem sensor_index_domain (part : string) (i : nat) :
  (sensor_index part i = Raise UnboundLocalError <-> ~ In part parts)
  /\ (In part parts ->
      exists index, sensor_index part i = Ok index /\ i <= index)
  /\ (~ In part parts -> sensor_num part = 4)
  /\ sensor_index "pfs_a_front" (sensor_num "pfs_a_front" + i)
     = sensor_index "pfs_b_top" i
  /\ sensor_index "pfs_b_top" (sensor_num "pfs_b_top" + i)
     = sensor_index "pfs_b_back" i
  /\ sensor_index "pfs_b_back" (sensor_num "pfs_b_back" + i)
     = sensor_index "pfs_b_left" i
  /\ sensor_index "pfs_b_left" (sensor_num "pfs_b_left" + i)
     = sensor_index "pfs_b_right" i.
Proof.
  split; [ | split; [ | split ] ].
  - unfold sensor_index, parts. cbn [In]. split.
    + intros H Hin.
      destruct Hin as [<- | [<- | [<- | [<- | [<- | []]]]]]; discriminate H.
    + intros H.
      repeat match goal with
        | |- context [String.eqb part ?s] =>
            destruct (String.eqb_spec part s);
            [ exfalso; apply H; subst; auto 10 | ]
        end.
      reflexivity.
  - intros H. each_part H; cbn; eexists; (split; [ reflexivity | lia ]).
  - intros H. apply sensor_num_other. intros ->. apply H. cbn. auto.
  - cbn. repeat split; f_equal; lia.
Qed.

(** ** When a sample is processed to the end *)

Section Completion.

Context {A S : Type}.
Variable body : A -> S -> M S.

(** A loop whose iterations all run to their end runs to its end. *)
Lemma for_each_run (Inv : list A -> S -> Prop) (out : A -> list event)
    (xs : list A) :
  (forall x s done,
      In x xs -> Inv done s ->
      exists s', body x s = (out x, Ok s') /\ Inv (done ++ [x]) s') ->
  forall done s,
    Inv done s ->
    exists s',
      for_each xs body s = (flat_map out xs, Ok s') /\ Inv (done ++ xs) s'.
Proof.
  induction xs as [ | x xs' IH ]; intros Hstep done s Hinv.
  - exists s. rewrite app_nil_r. now split.
  - destruct (Hstep x s done (or_introl eq_refl) Hinv) as (s1 & Hx & Hinv1).
    destruct (IH (fun y t dn Hy => Hstep y t dn (or_intror Hy))
                (done ++ [x]) s1 Hinv1) as (s' & Hrest & Hinv').
    exists s'. cbn [for_each flat_map]. rewrite Hx. cbn [bind].
    rewrite Hrest. rewrite <- app_assoc in Hinv'. now split.
Qed.

(** A loop whose first iteration faults before it logs anything faults
    likewise. *)
Lemma for_each_first_faults (x : A) (xs : list A) (s : S) (e : exn) :
  body x s = ([], Raise e) -> for_each (x :: xs) body s = ([], Raise e).
Proof. intros H. cbn [for_each]. now rewrite H. Qed.

End Completion.

Section Runs.

Open Scope float_scope.

Variable params : pfs_params_t.
Variable msg : PR2FingertipSensor.
Variables g f : string.
Hypothesis Hg : In g grippers.
Hypothesis Hf : In f fingertips.

Lemma proximity_step_run (part : string) (i : nat) (hd : Header) (d : float) :
  In part parts -> i < sensor_num part -> header_inv msg hd ->
  distance_at params msg g f part i = Ok d ->
  proximity_step (init params) msg g f part (board_frame g f part) i hd
  = (proximity_events params msg g f part i,
     Ok (sample_header msg (sensor_frame g f part i))).
Proof.
  intros Hp Hi Hinv Hd. unfold proximity_events. rewrite Hd.
  unfold distance_at in Hd. unfold proximity_step.
  rewrite (set_frame_id_inv msg hd _ Hinv).
  destruct (sensor_index part i) as [ index | ]; [ | discriminate ].
  cbn [rbind] in Hd. rewrite bind_lift_Ok.
  destruct (list_get (proximity msg) index) as [ raw | ]; [ | discriminate ].
  cbn [rbind] in Hd. rewrite bind_lift_Ok, Hd, bind_lift_Ok.
  destruct (d <? 0.1); [ | reflexivity ].
  destruct (pub_each_init params g f part "proximity_distance" i Hg Hf Hp
              ltac:(cbn; auto) Hi) as (p & Ep & Tp).
  destruct (pub_each_init params g f part "proximity_cloud" i Hg Hf Hp
              ltac:(cbn; auto) Hi) as (p' & Ep' & Tp').
  rewrite Ep, bind_lift_Ok, bind_publish, Ep', bind_lift_Ok, bind_publish.
  cbn. rewrite Tp, Tp'. reflexivity.
Qed.

Lemma force_step_run (part : string) (i : nat) (hd : Header) (avg z : float) :
  In part parts -> i < sensor_num part -> header_inv msg hd ->
  force_at params msg g f part i = Ok z ->
  force_step (init params) msg g f part (board_frame g f part)
    (sensor_num part) i (hd, avg)
  = (force_events params msg g f part i,
     Ok (sample_header msg (sensor_frame g f part i),
         avg + z / Py.float_of_nat (sensor_num part))).
Proof.
  intros Hp Hi Hinv Hz. unfold force_events. rewrite Hz.
  unfold force_at in Hz. unfold force_step.
  change (pfs_params (init params)) with params.
  destruct (sensor_index part i) as [ index | ]; [ | discriminate ].
  cbn [rbind] in Hz. rewrite bind_lift_Ok.
  destruct (param params g f "preload" index) as [ preload | ];
    [ | discriminate ].
  cbn [rbind] in Hz. rewrite bind_lift_Ok.
  destruct (param params g f "sensitivity" index) as [ sensitivity | ];
    [ | discriminate ].
  cbn [rbind] in Hz. rewrite bind_lift_Ok.
  destruct (list_get (force msg) index) as [ raw | ]; [ | discriminate ].
  cbn [rbind] in Hz. rewrite bind_lift_Ok, Hz, bind_lift_Ok.
  destruct (pub_each_init params g f part "force" i Hg Hf Hp
              ltac:(cbn; auto) Hi) as (p & Ep & Tp).
  rewrite Ep, bind_lift_Ok, bind_publish.
  unfold Py.div. rewrite sensor_count_nonzero, bind_lift_Ok.
  cbn. rewrite Tp, (set_frame_id_inv msg hd _ Hinv). reflexivity.
Qed.

Hypothesis distances :
  forall part i, In part parts -> i < sensor_num part ->
    exists d, distance_at params msg g f part i = Ok d.
Hypothesis forces :
  forall part i, In part parts -> i < sensor_num part ->
    exists z, force_at params msg g f part i = Ok z.

Lemma publish_proximity_run :
  publish_proximity (init params) msg g f
  = (proximity_log params msg g f, Ok tt).
Proof.
  unfold publish_proximity, proximity_log.
  destruct (for_each_run
              (fun part hd =>
                 for_each (range (sensor_num part))
                   (proximity_step (init params) msg g f part
                      (board_frame g f part)) hd)
              (fun _ => header_inv msg)
              (fun part =>
                 flat_map (proximity_events params msg g f part)
                   (range (sensor_num part)))
              parts) with (done := @nil string)
              (s := set_stamp Header_new (stamp (header msg)))
    as (hd' & E & _).
  - intros part hd _ Hp Hinv.
    apply (for_each_run _ (fun _ => header_inv msg)) with (done := @nil nat);
      [ | exact Hinv ].
    intros i hd1 _ Hi Hinv1. apply in_seq in Hi.
    destruct (distances part i Hp ltac:(lia)) as [d Hd].
    eexists. split.
    + apply (proximity_step_run part i hd1 d Hp ltac:(lia) Hinv1 Hd).
    + apply sample_header_inv.
  - apply header_inv_init.
  - refine (eq_trans (f_equal (fun m => bind m (fun _ => ret tt)) E) _).
    cbn [bind ret]. now rewrite app_nil_r.
Qed.

Lemma publish_force_run :
  publish_force (init params) msg g f = (force_log params msg g f, Ok tt).
Proof.
  unfold publish_force, force_log.
  destruct (for_each_run
              (fun part hd =>
                 bind
                   (for_each (range (sensor_num part))
                      (force_step (init params) msg g f part
                         (board_frame g f part) (sensor_num part))
                      (hd, 0))
                   (fun st =>
                      let (hd0, average_force) := st : Header * float in
                      bind (lift (pub_one (init params) g f part "wrench"))
                        (fun p =>
                           bind
                             (publish p
                                (MWrenchStamped
                                   (set_force_z
                                      (set_wrench_header WrenchStamped_new
                                         (set_frame_id hd0
                                            (board_frame g f part)))
                                      average_force)))
                             (fun _ =>
                                ret (set_frame_id hd0
                                       (board_frame g f part))))))
              (fun _ => header_inv msg)
              (board_events params msg g f)
              parts) with (done := @nil string)
              (s := set_stamp Header_new (stamp (header msg)))
    as (hd' & E & _).
  - intros part hd _ Hp Hinv.
    destruct (for_each_run
                (force_step (init params) msg g f part (board_frame g f part)
                   (sensor_num part))
                (force_inv params msg g f part)
                (force_events params msg g f part)
                (range (sensor_num part))) with (done := @nil nat)
                (s := (hd, 0))
      as ([hd2 avg] & -> & (Hinv2 & Havg & _)).
    + intros i [hd1 avg1] dn Hi (Hinv1 & Havg1 & Hdn). apply in_seq in Hi.
      cbn [fst snd] in *.
      destruct (forces part i Hp ltac:(lia)) as [z Hz].
      eexists. split.
      * apply (force_step_run part i hd1 avg1 z Hp ltac:(lia) Hinv1 Hz).
      * split; [ apply sample_header_inv | ]. cbn [fst snd]. split.
        -- rewrite map_app. cbn [map]. rewrite average_snoc, <- Havg1.
           now rewrite Hz.
        -- apply Forall_app. split; [ exact Hdn | ].
           constructor; [ eauto | constructor ].
    + split; [ exact Hinv | split; [ reflexivity | constructor ] ].
    + cbn [fst snd app] in *.
      destruct (pub_one_wrench params g f part Hg Hf Hp) as (p & Ep & Tp).
      cbn [bind]. rewrite Ep, bind_lift_Ok, bind_publish. cbn.
      rewrite Tp, (set_frame_id_inv msg hd2 _ Hinv2), Havg.
      eexists. split; [ reflexivity | apply sample_header_inv ].
  - apply header_inv_init.
  - refine (eq_trans (f_equal (fun m => bind m (fun _ => ret tt)) E) _).
    cbn [bind ret]. now rewrite app_nil_r.
Qed.

Lemma cb_run :
  cb (init params) msg (g, f)
  = (sample_log params msg g f, Ok (scaled_msg msg)).
Proof.
  unfold cb, sample_log. cbn [fst snd].
  rewrite publish_proximity_run, publish_force_run.
  cbn [bind]. rewrite (publish_imu_log params msg g f Hg Hf).
  reflexivity.
Qed.

End Runs.

(** ** Unregistered arguments *)

Lemma dict_get_missing {V : Type} (d : dict V) (k : string) :
  ~ In k (map fst d) -> dict_get d k = Raise KeyError.
Proof.
  induction d as [ | [k' v] d IH ]; cbn; intros H; [ reflexivity | ].
  destruct (String.eqb_spec k' k) as [-> | Hne].
  - exfalso. apply H. now left.
  - apply IH. intros Hin. apply H. now right.
Qed.

Lemma registry_lookup_unregistered (params : pfs_params_t) (g f : string) :
  ~ (In g grippers /\ In f fingertips) ->
  rbind (dict_get (pub (init params)) g) (fun dg => dict_get dg f)
  = Raise KeyError.
Proof.
  intros H.
  destruct (in_dec string_dec g grippers) as [Hg | Hg].
  - assert (Hf : ~ In f fingertips) by tauto.
    each_gripper Hg;
      (match goal with
       | |- rbind ?r _ = _ =>
           let E := fresh "E" in
           destruct r as [ dg | ] eqn:E; vm_compute in E;
           [ injection E as <- | discriminate E ]
       end;
       cbn [rbind]; apply dict_get_missing; exact Hf).
  - now rewrite (dict_get_missing (pub (init params)) g Hg).
Qed.

Lemma pub_each_unregistered (params : pfs_params_t) (g f part sensor : string)
    (i : nat) :
  ~ (In g grippers /\ In f fingertips) ->
  pub_each (init params) g f part sensor i = Raise KeyError.
Proof.
  intros H. pose proof (registry_lookup_unregistered params g f H) as E.
  unfold pub_each.
  destruct (dict_get (pub (init params)) g) as [ dg | e ]; cbn [rbind] in *;
    [ | now injection E as -> ].
  now rewrite E.
Qed.

Lemma pub_one_unregistered (params : pfs_params_t) (g f part sensor : string) :
  ~ (In g grippers /\ In f fingertips) ->
  pub_one (init params) g f part sensor = Raise KeyError.
Proof.
  intros H. pose proof (registry_lookup_unregistered params g f H) as E.
  unfold pub_one.
  destruct (dict_get (pub (init params)) g) as [ dg | e ]; cbn [rbind] in *;
    [ | now injection E as -> ].
  now rewrite E.
Qed.

Ltac run_unregistered H :=
  repeat match goal with
    | |- context [bind (lift (pub_each _ _ _ _ _ _)) _] =>
        rewrite (pub_each_unregistered _ _ _ _ _ _ H), bind_lift_Raise
    | |- context [bind (lift (pub_one _ _ _ _ _)) _] =>
        rewrite (pub_one_unregistered _ _ _ _ _ H), bind_lift_Raise
    | |- context [bind (lift ?r) _] =>
        destruct r; [ rewrite bind_lift_Ok | rewrite bind_lift_Raise ]
    | |- context [if ?c then _ else _] => destruct c
    end.

Section Unregistered.

Variable params : pfs_params_t.
Variable msg : PR2FingertipSensor.
Variables g f : string.
Hypothesis H : ~ (In g grippers /\ In f fingertips).

Lemma proximity_step_silent (part base : string) (i : nat) (hd : Header) :
  fst (proximity_step (init params) msg g f part base i hd) = [].
Proof. unfold proximity_step. run_unregistered H; reflexivity. Qed.

Lemma publish_proximity_silent :
  fst (publish_proximity (init params) msg g f) = [].
Proof.
  assert (HF : Forall (fun _ => False)
                 (fst (publish_proximity (init params) msg g f))).
  { unfold publish_proximity. apply Forall_bind; [ | constructor ].
    apply (for_each_Forall _ (fun _ => True)); [ | exact I ].
    intros part hd _.
    apply (for_each_Forall _ (fun _ => True)); [ | exact I ].
    intros i hd' _. rewrite proximity_step_silent. now split. }
  destruct (fst (publish_proximity (init params) msg g f)) as [ | e l ];
    [ reflexivity | now inversion HF ].
Qed.

Lemma force_step_faults (part base : string) (n i : nat)
    (st : Header * float) :
  exists e, force_step (init params) msg g f part base n i st = ([], Raise e).
Proof.
  destruct st as [hd avg]. unfold force_step.
  run_unregistered H; eexists; reflexivity.
Qed.

Lemma publish_force_faults :
  exists e, publish_force (init params) msg g f = ([], Raise e).
Proof.
  unfold publish_force. cbv zeta.
  destruct (force_step_faults "pfs_a_front"
              ("/" ++ g ++ "_" ++ f ++ "_" ++ "pfs_a_front")%string
              (sensor_num "pfs_a_front") 0
              (set_stamp Header_new (stamp (header msg)), 0%float))
    as [e He].
  exists e. unfold parts. cbn [for_each].
  change (range (sensor_num "pfs_a_front")) with (0 :: seq 1 7).
  now rewrite (for_each_first_faults _ _ _ _ e He).
Qed.

Lemma cb_unregistered : exists e, cb (init params) msg (g, f) = ([], Raise e).
Proof.
  unfold cb. cbn [fst snd].
  pose proof publish_proximity_silent as Hs.
  destruct (publish_proximity (init params) msg g f) as [l [[] | e]];
    cbn [fst] in Hs; subst l.
  - destruct publish_force_faults as [e ->]. now exists e.
  - now exists e.
Qed.

End Unregistered.

(** X4. Called for a gripper and fingertip pair that [__init__] did not
    register, the callback faults and publishes nothing at all, whatever
    the sample and the calibration table are. *)
Theorem unregistered_args_fault (params : pfs_params_t)
    (msg : PR2FingertipSensor) (g f : string) :
  ~ (In g grippers /\ In f fingertips) ->
  exists e, cb (init params) msg (g, f) = ([], Raise e).
Proof. intros H. now apply cb_unregistered. Qed.

Lemma unregistered_args_fault_witness :
  exists e, cb (init Sample.params) Sample.msg ("l_gripper", "thumb")
            = ([], Raise e).
Proof.
  apply (unregistered_args_fault Sample.params Sample.msg "l_gripper" "thumb").
  cbn. intros [_ [E | [E | []]]]; discriminate E.
Defined.

(** ** Which samples are processed to the end *)

Lemma param_field (ps : pfs_params_t) (g f field : string) (l : list float)
    (k : nat) :
  field_of ps g f field = Ok l -> param ps g f field k = list_get l k.
Proof.
  unfold field_of, param.
  destruct (dict_get ps g) as [ dg | ]; cbn [rbind]; [ | discriminate ].
  destruct (dict_get dg f) as [ df | ]; cbn [rbind]; [ | discriminate ].
  now intros ->.
Qed.

Lemma param_Ok_field (ps : pfs_params_t) (g f field : string) (k : nat)
    (x : float) :
  param ps g f field k = Ok x ->
  exists l, field_of ps g f field = Ok l /\ nth_error l k = Some x.
Proof.
  unfold field_of, param.
  destruct (dict_get ps g) as [ dg | ]; cbn [rbind]; [ | discriminate ].
  destruct (dict_get dg f) as [ df | ]; cbn [rbind]; [ | discriminate ].
  destruct (dict_get df field) as [ l | ]; cbn [rbind]; [ | discriminate ].
  unfold list_get. destruct (nth_error l k) as [ y | ] eqn:E;
    [ | discriminate ].
  intros [= ->]. eauto.
Qed.

Lemma list_get_Some {A : Type} (l : list A) (k : nat) (x : A) :
  nth_error l k = Some x -> list_get l k = Ok x.
Proof. unfold list_get. now intros ->. Qed.

Lemma list_get_Ok {A : Type} (l : list A) (k : nat) (x : A) :
  list_get l k = Ok x -> nth_error l k = Some x /\ k < List.length l.
Proof.
  unfold list_get. destruct (nth_error l k) as [ y | ] eqn:E;
    [ | discriminate ].
  intros [= ->]. split; [ reflexivity | ].
  apply nth_error_Some. congruence.
Qed.

Lemma nth_error_below {A : Type} (l : list A) (k : nat) :
  k < List.length l -> exists x, nth_error l k = Some x.
Proof.
  intros H. destruct (nth_error l k) as [ x | ] eqn:E; [ eauto | ].
  apply nth_error_None in E. lia.
Qed.

Lemma global_index_onto (k : nat) :
  k < 24 ->
  exists part i,
    In part parts /\ i < sensor_num part /\ sensor_index part i = Ok k.
Proof.
  intros Hk.
  destruct (Nat.lt_ge_cases k 8); [ exists "pfs_a_front", k | ].
  2: destruct (Nat.lt_ge_cases k 12); [ exists "pfs_b_top", (k - 8) | ].
  3: destruct (Nat.lt_ge_cases k 16); [ exists "pfs_b_back", (k - 12) | ].
  4: destruct (Nat.lt_ge_cases k 20);
       [ exists "pfs_b_left", (k - 16) | exists "pfs_b_right", (k - 20) ].
  all: cbn; repeat split; auto 6; try lia; f_equal; lia.
Qed.

(** X5. With a calibration table that holds, for a registered gripper and
    fingertip, the four arrays with at least 24 entries each, every
    [proximity_a] among the first 24 zero or above zero and every
    [sensitivity] among them non-zero, a sample with at least 24 proximity
    readings and 24 force readings is processed to the end, whatever the
    readings are; the log is then the proximity outputs, the force outputs
    and the IMU message, in that order, and the message is left with its
    IMU vectors scaled. *)
Theorem well_formed_sample_completes (params : pfs_params_t)
    (msg : PR2FingertipSensor) (g f : string) (la lb lp ls : list float) :
  In g grippers -> In f fingertips ->
  field_of params g f "proximity_a" = Ok la ->
  field_of params g f "proximity_b" = Ok lb ->
  field_of params g f "preload" = Ok lp ->
  field_of params g f "sensitivity" = Ok ls ->
  24 <= List.length la -> 24 <= List.length lb ->
  24 <= List.length lp -> 24 <= List.length ls ->
  24 <= List.length (proximity msg) -> 24 <= List.length (force msg) ->
  (forall k a, k < 24 -> nth_error la k = Some a ->
     (a =? 0)%float = true \/ (0 <=? a)%float = true) ->
  (forall k s, k < 24 -> nth_error ls k = Some s -> (s =? 0)%float = false) ->
  cb (init params) msg (g, f)
  = (sample_log params msg g f, Ok (scaled_msg msg)).
Proof.
  intros Hg Hf Fa Fb Fp Fs La Lb Lp Ls Lprox Lforce Ha Hs.
  apply cb_run; try assumption; intros part i Hpart Hi;
    destruct (sensor_index_valid part i Hpart Hi) as (k & Ek & Hk).
  - destruct (nth_error_below (proximity msg) k ltac:(lia)) as [raw Eraw].
    destruct (nth_error_below la k ltac:(lia)) as [a Ea].
    destruct (nth_error_below lb k ltac:(lia)) as [b Eb].
    unfold distance_at. rewrite Ek. cbn [rbind].
    rewrite (list_get_Some _ _ _ Eraw). cbn [rbind].
    rewrite (proximity_to_distance_eq (init params) raw g f part i k a b Ek).
    + destruct (a =? 0)%float eqn:E0; [ eauto | ].
      destruct (Ha k a Hk Ea) as [E | Hpos]; [ congruence | ].
      unfold Py.sqrt.
      rewrite (quotient_not_negative a _ E0 Hpos (max_floor (raw - b))).
      eauto.
    + change (pfs_params (init params)) with params.
      rewrite (param_field _ _ _ _ _ k Fa). now apply list_get_Some.
    + change (pfs_params (init params)) with params.
      rewrite (param_field _ _ _ _ _ k Fb). now apply list_get_Some.
  - destruct (nth_error_below (force msg) k ltac:(lia)) as [raw Eraw].
    destruct (nth_error_below lp k ltac:(lia)) as [preload Ep].
    destruct (nth_error_below ls k ltac:(lia)) as [s Es].
    unfold force_at. rewrite Ek. cbn [rbind].
    rewrite (param_field _ _ _ _ _ k Fp), (list_get_Some _ _ _ Ep).
    cbn [rbind].
    rewrite (param_field _ _ _ _ _ k Fs), (list_get_Some _ _ _ Es).
    cbn [rbind].
    rewrite (list_get_Some _ _ _ Eraw). cbn [rbind].
    unfold Py.div. rewrite (Hs k s Hk Es). eauto.
Qed.

Lemma well_formed_sample_completes_witness :
  cb (init Sample.params) Sample.msg ("l_gripper", "l_fingertip")
  = (sample_log Sample.params Sample.msg "l_gripper" "l_fingertip",
     Ok (scaled_msg Sample.msg)).
Proof.
  apply (well_formed_sample_completes Sample.params Sample.msg
           "l_gripper" "l_fingertip"
           (Sample.uniform 0.01) (Sample.uniform 5)
           (Sample.uniform 500) (Sample.uniform 3.7));
    try reflexivity; try (cbn; auto; lia).
  - intros k a _ E. apply nth_error_In, repeat_spec in E. subst a.
    right. reflexivity.
  - intros k s _ E. apply nth_error_In, repeat_spec in E. subst s.
    reflexivity.
Defined.

(** X6. A sample is processed to the end only if the gripper and the
    fingertip are registered, the sample holds at least 24 proximity
    readings and 24 force readings, the calibration table holds the four
    arrays for that fingertip with at least 24 entries each, and at every
    global index below 24 the [sensitivity] is non-zero and the
    [proximity_a] is zero or gives a quotient [a / max(0.1, raw - b)] that
    is not below zero. *)
Theorem completion_requires (params : pfs_params_t)
    (msg msg' : PR2FingertipSensor) (g f : string) (log : list event) :
  cb (init params) msg (g, f) = (log, Ok msg') ->
  In g grippers /\ In f fingertips
  /\ 24 <= List.length (proximity msg) /\ 24 <= List.length (force msg)
  /\ exists la lb lp ls,
      field_of params g f "proximity_a" = Ok la
      /\ field_of params g f "proximity_b" = Ok lb
      /\ field_of params g f "preload" = Ok lp
      /\ field_of params g f "sensitivity" = Ok ls
      /\ 24 <= List.length la /\ 24 <= List.length lb
      /\ 24 <= List.length lp /\ 24 <= List.length ls
      /\ forall k, k < 24 ->
          exists a b s raw,
            nth_error la k = Some a /\ nth_error lb k = Some b
            /\ nth_error ls k = Some s
            /\ nth_error (proximity msg) k = Some raw
            /\ (s =? 0)%float = false
            /\ ((a =? 0)%float = true
                \/ (a / Py.max 0.1 (raw - b) <? 0)%float = false).
Proof.
  intros Hrun.
  assert (Hreg : In g grippers /\ In f fingertips).
  { destruct (in_dec string_dec g grippers) as [Hg | Hg];
      destruct (in_dec string_dec f fingertips) as [Hf | Hf];
      try (now split);
      destruct (cb_unregistered params msg g f ltac:(tauto)) as [e He];
      congruence. }
  destruct Hreg as [Hg Hf]. split; [ exact Hg | ]. split; [ exact Hf | ].
  destruct (cb_log params msg g f Hg Hf log msg' Hrun) as (_ & _ & Hall).
  assert (Hk : forall k, k < 24 ->
            exists a b p s rawp rawf,
              param params g f "proximity_a" k = Ok a
              /\ param params g f "proximity_b" k = Ok b
              /\ param params g f "preload" k = Ok p
              /\ param params g f "sensitivity" k = Ok s
              /\ list_get (proximity msg) k = Ok rawp
              /\ list_get (force msg) k = Ok rawf
              /\ (s =? 0)%float = false
              /\ ((a =? 0)%float = true
                  \/ (a / Py.max 0.1 (rawp - b) <? 0)%float = false)).
  { intros k Hlt.
    destruct (global_index_onto k Hlt) as (part & i & Hp & Hi & Ek).
    destruct (Hall part i Hp Hi) as [[d Hd] [z Hz]].
    destruct (force_at_value params msg g f part i z Hz)
      as (k' & rawf & p & s & Ek' & Ep & Es & Ef & Hs & _).
    assert (k' = k) by congruence. subst k'.
    unfold distance_at in Hd. rewrite Ek in Hd. cbn [rbind] in Hd.
    destruct (list_get (proximity msg) k) as [ rawp | ] eqn:Eraw;
      [ | discriminate ].
    cbn [rbind] in Hd. unfold proximity_to_distance in Hd.
    change (pfs_params (init params)) with params in Hd.
    rewrite Ek in Hd. cbn [rbind] in Hd.
    destruct (param params g f "proximity_a" k) as [ a | ] eqn:Ea;
      [ | discriminate ].
    destruct (param params g f "proximity_b" k) as [ b | ] eqn:Eb;
      [ | discriminate ].
    cbn [rbind] in Hd.
    exists a, b, p, s, rawp, rawf.
    repeat (split; [ assumption || reflexivity | ]).
    destruct (a =? 0)%float; [ now left | right ].
    unfold Py.div in Hd.
    rewrite (above_floor_nonzero _ (max_floor (rawp - b))) in Hd.
    cbn [rbind] in Hd. unfold Py.sqrt in Hd.
    now destruct (a / Py.max 0.1 (rawp - b) <? 0)%float. }
  destruct (Hk 23 ltac:(lia))
    as (a & b & p & s & rawp & rawf & Ea & Eb & Ep & Es & Erp & Erf & _).
  apply list_get_Ok in Erp as [_ Lp], Erf as [_ Lf].
  split; [ lia | ]. split; [ lia | ].
  destruct (param_Ok_field _ _ _ _ _ _ Ea) as (la & Fa & Na).
  destruct (param_Ok_field _ _ _ _ _ _ Eb) as (lb & Fb & Nb).
  destruct (param_Ok_field _ _ _ _ _ _ Ep) as (lp & Fp & Np).
  destruct (param_Ok_field _ _ _ _ _ _ Es) as (ls & Fs & Ns).
  exists la, lb, lp, ls. repeat (split; [ assumption | ]).
  assert (Hlen : forall (l : list float) x, nth_error l 23 = Some x ->
                   24 <= List.length l).
  { intros l x E. assert (23 < List.length l); [ | lia ].
    apply nth_error_Some. congruence. }
  repeat (split; [ eapply Hlen; eassumption | ]).
  intros k Hlt.
  destruct (Hk k Hlt)
    as (a' & b' & p' & s' & rawp' & rawf' & Ea' & Eb' & _ & Es' & Erp' & _
        & Hs' & Hq').
  rewrite (param_field _ _ _ _ _ k Fa) in Ea'.
  rewrite (param_field _ _ _ _ _ k Fb) in Eb'.
  rewrite (param_field _ _ _ _ _ k Fs) in Es'.
  apply list_get_Ok in Ea' as [Ea' _], Eb' as [Eb' _], Es' as [Es' _],
    Erp' as [Erp' _].
  exists a', b', s', rawp'. repeat (split; [ assumption | ]). exact Hq'.
Qed.

Lemma completion_requires_witness :
  In "l_gripper" grippers /\ In "l_fingertip" fingertips
  /\ 24 <= List.length (proximity Sample.msg)
  /\ 24 <= List.length (force Sample.msg)
  /\ exists la lb lp ls,
      field_of Sample.params "l_gripper" "l_fingertip" "proximity_a" = Ok la
      /\ field_of Sample.params "l_gripper" "l_fingertip" "proximity_b" = Ok lb
      /\ field_of Sample.params "l_gripper" "l_fingertip" "preload" = Ok lp
      /\ field_of Sample.params "l_gripper" "l_fingertip" "sensitivity" = Ok ls
      /\ 24 <= List.length la /\ 24 <= List.length lb
      /\ 24 <= List.length lp /\ 24 <= List.length ls
      /\ forall k, k < 24 ->
          exists a b s raw,
            nth_error la k = Some a /\ nth_error lb k = Some b
            /\ nth_error ls k = Some s
            /\ nth_error (proximity Sample.msg) k = Some raw
            /\ (s =? 0)%float = false
            /\ ((a =? 0)%float = true
                \/ (a / Py.max 0.1 (raw - b) <? 0)%float = false).
Proof.
  apply (completion_requires Sample.params Sample.msg (scaled_msg Sample.msg)
           "l_gripper" "l_fingertip" Sample.log).
  vm_compute. reflexivity.
Defined.

(** ** Faults at the first sensor *)

(** X7. The first thing the callback touches is the first proximity
    reading and its calibration: on a sample without proximity readings it
    faults with [IndexError], and on a sample with some but a calibration
    table that lacks the gripper, the fingertip or the [proximity_a] array
    it faults with [KeyError]; either way nothing has been published. *)
Theorem first_sensor_faults (self : ConvertPFS) (msg : PR2FingertipSensor)
    (g f : string) :
  (proximity msg = [] -> cb self msg (g, f) = ([], Raise IndexError))
  /\ (proximity msg <> [] ->
      field_of (pfs_params self) g f "proximity_a" = Raise KeyError ->
      cb self msg (g, f) = ([], Raise KeyError)).
Proof.
  split.
  - intros E. unfold cb, publish_proximity, parts. cbn [fst snd for_each].
    change (range (sensor_num "pfs_a_front")) with (0 :: seq 1 7).
    cbn [for_each]. unfold proximity_step at 1.
    change (sensor_index "pfs_a_front" 0) with (@Ok nat 0).
    rewrite bind_lift_Ok, E. reflexivity.
  - intros E F. unfold cb, publish_proximity, parts. cbn [fst snd for_each].
    change (range (sensor_num "pfs_a_front")) with (0 :: seq 1 7).
    cbn [for_each]. unfold proximity_step at 1.
    change (sensor_index "pfs_a_front" 0) with (@Ok nat 0).
    rewrite bind_lift_Ok.
    destruct (proximity msg) as [ | raw rest ]; [ contradiction | ].
    change (list_get (raw :: rest) 0) with (Ok raw).
    rewrite bind_lift_Ok.
    assert (P : proximity_to_distance self raw g f "pfs_a_front" 0
                = Raise KeyError).
    { unfold proximity_to_distance.
      change (sensor_index "pfs_a_front" 0) with (@Ok nat 0). cbn [rbind].
      unfold param. unfold field_of in F.
      destruct (dict_get (pfs_params self) g) as [ dg | ]; cbn [rbind] in *;
        [ | now injection F as -> ].
      destruct (dict_get dg f) as [ df | ]; cbn [rbind] in *;
        [ | now injection F as -> ].
      now rewrite F. }
    rewrite P. reflexivity.
Qed.

Example empty_sample_faults :
  cb Sample.node
    (mkPR2FingertipSensor (header Sample.msg) [] (force Sample.msg)
       (imu Sample.msg))
    ("l_gripper", "l_fingertip")
  = ([], Raise IndexError)
  /\ cb (init []) Sample.msg ("l_gripper", "l_fingertip")
     = ([], Raise KeyError).
Proof. split; vm_compute; reflexivity. Qed.

(** ** The distances that get out *)

Section Gated.

Open Scope float_scope.



Variable self : ConvertPFS.
Variable msg : PR2FingertipSensor.
Variables g f : string.



End Gated.


(** ** Messages and the publishers they go through *)

Lemma dict_get_In {V : Type} (d : dict V) (k : string) (v : V) :
  dict_get d k = Ok v -> In (k, v) d.
Proof.
  induction d as [ | [k' v'] d IH ]; cbn; [ discriminate | ].
  destruct (String.eqb_spec k' k) as [-> | Hne].
  - intros [= ->]. now left.
  - intros H. right. now apply IH.
Qed.

Lemma idx_get_In (ps : list (nat * Publisher)) (i : nat) (p : Publisher) :
  idx_get ps i = Ok p -> In (i, p) ps.
Proof.
  induction ps as [ | [j q] ps IH ]; cbn; [ discriminate | ].
  destruct (Nat.eqb_spec j i) as [-> | Hne].
  - intros [= ->]. now left.
  - intros H. right. now apply IH.
Qed.

Lemma slot_channel (self : ConvertPFS) (g f part sensor : string)
    (slot : pub_slot) (c : channel) :
  rbind (dict_get (pub self) g)
    (fun dg => rbind (dict_get dg f)
       (fun df => rbind (dict_get df part) (fun dp => dict_get dp sensor)))
  = Ok slot ->
  In c (slot_channels g f part sensor slot) ->
  In c (channels (pub self)).
Proof.
  intros H Hc.
  destruct (dict_get (pub self) g) as [ dg | ] eqn:Eg; cbn [rbind] in H;
    [ | discriminate ].
  destruct (dict_get dg f) as [ df | ] eqn:Ef; cbn [rbind] in H;
    [ | discriminate ].
  destruct (dict_get df part) as [ dp | ] eqn:Ep; cbn [rbind] in H;
    [ | discriminate ].
  unfold channels.
  apply in_flat_map. exists (g, dg). split; [ now apply dict_get_In | ].
  apply in_flat_map. exists (f, df). split; [ now apply dict_get_In | ].
  apply in_flat_map. exists (part, dp). split; [ now apply dict_get_In | ].
  apply in_flat_map. exists (sensor, slot).
  split; [ now apply dict_get_In | exact Hc ].
Qed.

Lemma pub_each_channel (self : ConvertPFS) (g f part sensor : string)
    (i : nat) (p : Publisher) :
  pub_each self g f part sensor i = Ok p ->
  In (mkChannel g f part sensor (Some i) p) (channels (pub self)).
Proof.
  unfold pub_each. intros H.
  destruct (rbind (dict_get (pub self) g)
              (fun dg => rbind (dict_get dg f)
                 (fun df => rbind (dict_get df part)
                    (fun dp => dict_get dp sensor))))
    as [ slot | ] eqn:E.
  - apply (slot_channel self g f part sensor slot _ E).
    destruct (dict_get (pub self) g) as [ dg | ]; cbn [rbind] in *;
      [ | discriminate ].
    destruct (dict_get dg f) as [ df | ]; cbn [rbind] in *;
      [ | discriminate ].
    destruct (dict_get df part) as [ dp | ]; cbn [rbind] in *;
      [ | discriminate ].
    rewrite E in H. cbn [rbind] in H.
    destruct slot as [ q | ps ]; [ discriminate | ].
    cbn [slot_channels].
    apply (in_map (fun ip => mkChannel g f part sensor (Some (fst ip))
                               (snd ip)) ps (i, p)).
    now apply idx_get_In.
  - exfalso.
    destruct (dict_get (pub self) g) as [ dg | ]; cbn [rbind] in *;
      [ | discriminate ].
    destruct (dict_get dg f) as [ df | ]; cbn [rbind] in *;
      [ | discriminate ].
    destruct (dict_get df part) as [ dp | ]; cbn [rbind] in *;
      [ | discriminate ].
    rewrite E in H. discriminate.
Qed.

Lemma pub_one_channel (self : ConvertPFS) (g f part sensor : string)
    (p : Publisher) :
  pub_one self g f part sensor = Ok p ->
  In (mkChannel g f part sensor None p) (channels (pub self)).
Proof.
  unfold pub_one. intros H.
  destruct (rbind (dict_get (pub self) g)
              (fun dg => rbind (dict_get dg f)
                 (fun df => rbind (dict_get df part)
                    (fun dp => dict_get dp sensor))))
    as [ slot | ] eqn:E.
  - apply (slot_channel self g f part sensor slot _ E).
    destruct (dict_get (pub self) g) as [ dg | ]; cbn [rbind] in *;
      [ | discriminate ].
    destruct (dict_get dg f) as [ df | ]; cbn [rbind] in *;
      [ | discriminate ].
    destruct (dict_get df part) as [ dp | ]; cbn [rbind] in *;
      [ | discriminate ].
    rewrite E in H. cbn [rbind] in H.
    destruct slot as [ q | ps ]; [ | discriminate ].
    injection H as ->. now left.
  - exfalso.
    destruct (dict_get (pub self) g) as [ dg | ]; cbn [rbind] in *;
      [ | discriminate ].
    destruct (dict_get dg f) as [ df | ]; cbn [rbind] in *;
      [ | discriminate ].
    destruct (dict_get df part) as [ dp | ]; cbn [rbind] in *;
      [ | discriminate ].
    rewrite E in H. discriminate.
Qed.

Ltac run_step_eq :=
  repeat match goal with
    | |- context [bind (lift ?r) _] =>
        let E := fresh "E" in
        destruct r eqn:E; [ rewrite bind_lift_Ok | rewrite bind_lift_Raise ]
    | |- context [bind (publish _ _) _] => rewrite bind_publish
    | |- context [if ?c then _ else _] => destruct c
    end.

Ltac sent :=
  match goal with
  | H : pub_each _ _ _ _ _ _ = Ok ?p
    |- sent_on _ _ _ {| ev_topic := topic ?p; ev_msg := _ |} =>
      eexists; split; [ apply (pub_each_channel _ _ _ _ _ _ _ H) | ];
      repeat split
  | H : pub_one _ _ _ _ _ = Ok ?p
    |- sent_on _ _ _ {| ev_topic := topic ?p; ev_msg := _ |} =>
      eexists; split; [ apply (pub_one_channel _ _ _ _ _ _ H) | ];
      repeat split
  end.

Section Sent.

Variable self : ConvertPFS.
Variable msg : PR2FingertipSensor.
Variables g f : string.

Lemma cb_sent : Forall (sent_on (pub self) g f) (fst (cb self msg (g, f))).
Proof.
  unfold cb. cbn [fst snd].
  apply Forall_bind; [ | intros _ _; apply Forall_bind; [ | intros _ _ ] ].
  - unfold publish_proximity. apply Forall_bind; [ | constructor ].
    apply (for_each_Forall _ (fun _ => True)); [ | exact I ].
    intros part hd _.
    apply (for_each_Forall _ (fun _ => True)); [ | exact I ].
    intros i hd' _. split; [ | trivial ].
    unfold proximity_step. run_step_eq; cbn; repeat constructor; sent.
  - unfold publish_force. apply Forall_bind; [ | constructor ].
    apply (for_each_Forall _ (fun _ => True)); [ | exact I ].
    intros part hd _. split; [ | trivial ].
    apply Forall_bind.
    + apply (for_each_Forall _ (fun _ => True)); [ | exact I ].
      intros i [hd' avg] _. split; [ | trivial ].
      unfold force_step. run_step_eq; cbn; repeat constructor; sent.
    + intros [hd' avg] _. run_step_eq; cbn; repeat constructor; sent.
  - unfold publish_imu. run_step_eq; cbn; repeat constructor; sent.
Qed.

End Sent.

Lemma registry_types (params : pfs_params_t) (c : channel) :
  In c (channels (pub (init params))) ->
  sensor_type (ch_sensor c) = Some (pub_type (ch_pub c)).
Proof.
  assert (H : forallb
                (fun c =>
                   match sensor_type (ch_sensor c) with
                   | Some t => msg_type_eqb t (pub_type (ch_pub c))
                   | None => false
                   end)
                (channels (pub (init params))) = true)
    by (vm_compute; reflexivity).
  rewrite forallb_forall in H. intros Hc. specialize (H c Hc).
  destruct (sensor_type (ch_sensor c)) as [ t | ]; [ | discriminate ].
  destruct t, (pub_type (ch_pub c)); try discriminate; reflexivity.
Qed.

(** X9. Whatever the sample, the arguments and the outcome of the
    callback, every message it publishes goes through a publisher that
    [__init__] registered for the very gripper and fingertip it was called
    with, on that publisher's topic, and has the message type the
    publisher was registered with. *)
Theorem published_on_own_channels (params : pfs_params_t)
    (msg : PR2FingertipSensor) (g f : string) :
  Forall
    (fun e =>
       exists c,
         In c (channels (pub (init params)))
         /\ ch_gripper c = g /\ ch_fingertip c = f
         /\ topic (ch_pub c) = ev_topic e
         /\ pub_type (ch_pub c) = type_of (ev_msg e))
    (fst (cb (init params) msg (g, f))).
Proof.
  eapply Forall_impl; [ | apply (cb_sent (init params) msg g f) ].
  intros e (c & Hc & Hg & Hf & Ht & Hty).
  exists c. repeat (split; [ assumption | ]).
  rewrite (registry_types params c Hc) in Hty. congruence.
Qed.

(** ** How many messages, and in which order *)

Lemma paired_app (l1 l2 : list event) (k1 k2 : nat) :
  paired l1 k1 -> paired l2 k2 -> paired (l1 ++ l2) (k1 + k2).
Proof.
  intros (A1 & B1 & C1 & D1) (A2 & B2 & C2 & D2). unfold paired.
  rewrite !filter_app, !length_app, forallb_app, A1, A2, B1, B2, C1, C2, D1, D2.
  repeat split. lia.
Qed.

Lemma paired_flat_map {A : Type} (out : A -> list event) (w : A -> nat)
    (xs : list A) :
  (forall x, In x xs -> exists k, k <= w x /\ paired (out x) k) ->
  exists k, k <= list_sum (map w xs) /\ paired (flat_map out xs) k.
Proof.
  induction xs as [ | x xs IH ]; intros H.
  - exists 0. split; [ cbn; lia | repeat split ].
  - destruct (H x (or_introl eq_refl)) as (k1 & L1 & P1).
    destruct (IH (fun y Hy => H y (or_intror Hy))) as (k2 & L2 & P2).
    exists (k1 + k2).
    change (list_sum (map w (x :: xs))) with (w x + list_sum (map w xs)).
    split; [ lia | now apply paired_app ].
Qed.

Lemma proximity_events_paired (params : pfs_params_t)
    (msg : PR2FingertipSensor) (g f part : string) (i : nat) :
  exists k, k <= 1 /\ paired (proximity_events params msg g f part i) k.
Proof.
  unfold proximity_events.
  destruct (distance_at params msg g f part i) as [ d | e ].
  - destruct (d <? 0.1)%float; [ exists 1 | exists 0 ];
      (split; [ lia | repeat split ]).
  - exists 0. split; [ lia | repeat split ].
Qed.

Lemma proximity_log_paired (params : pfs_params_t) (msg : PR2FingertipSensor)
    (g f : string) :
  exists k, k <= 24 /\ paired (proximity_log params msg g f) k.
Proof.
  unfold proximity_log.
  destruct (paired_flat_map
              (fun part =>
                 flat_map (proximity_events params msg g f part)
                   (range (sensor_num part)))
              sensor_num parts) as (k & L & P).
  - intros part _.
    destruct (paired_flat_map (proximity_events params msg g f part)
                (fun _ => 1) (range (sensor_num part))) as (k & L & P).
    + intros i _. apply proximity_events_paired.
    + exists k. split; [ | exact P ].
      assert (E : forall l : list nat, list_sum (map (fun _ => 1) l)
                                       = List.length l).
      { induction l as [ | a l IH ]; [ reflexivity | ].
        change (list_sum (map (fun _ : nat => 1) (a :: l)))
          with (S (list_sum (map (fun _ : nat => 1) l))).
        now rewrite IH. }
      rewrite E in L. unfold range in L. now rewrite length_seq in L.
  - exists k. split; [ exact L | exact P ].
Qed.

Lemma force_log_shape (params : pfs_params_t) (msg : PR2FingertipSensor)
    (g f : string) :
  List.length (force_log params msg g f) = 29
  /\ forallb is_wrench (force_log params msg g f) = true.
Proof.
  assert (L : forall part l,
             List.length (flat_map (force_events params msg g f part) l)
             = List.length l
             /\ forallb is_wrench
                  (flat_map (force_events params msg g f part) l) = true).
  { intros part l. induction l as [ | i l [IH1 IH2] ]; [ now split | ].
    cbn. rewrite IH1, IH2. now split. }
  unfold force_log, parts, board_events. cbn [flat_map].
  rewrite !length_app, !forallb_app.
  repeat rewrite (proj1 (L _ _)). repeat rewrite (proj2 (L _ _)).
  unfold range. rewrite !length_seq. split; reflexivity.
Qed.

(** X10. A sample processed to the end has put out, in this order: the
    proximity outputs, which are [n] distances and [n] clouds for some [n]
    of at most 24 and nothing else; then 29 wrenches and nothing else; then
    the IMU message, last. So the log holds [30 + 2 * n] messages, between
    30 and 78. *)
Theorem message_order_and_counts (params : pfs_params_t)
    (msg msg' : PR2FingertipSensor) (g f : string) (log : list event) :
  cb (init params) msg (g, f) = (log, Ok msg') ->
  exists lp lf n,
    log = lp ++ lf ++ [imu_event g f (scaled_imu (imu msg))]
    /\ forallb is_proximity lp = true
    /\ List.length (filter is_distance lp) = n
    /\ List.length (filter is_cloud lp) = n
    /\ List.length lp = 2 * n
    /\ n <= 24
    /\ forallb is_wrench lf = true
    /\ List.length lf = 29
    /\ List.length log = 30 + 2 * n.
Proof.
  intros Hrun.
  assert (Hreg : In g grippers /\ In f fingertips).
  { destruct (in_dec string_dec g grippers) as [Hg | Hg];
      destruct (in_dec string_dec f fingertips) as [Hf | Hf];
      try (now split);
      destruct (cb_unregistered params msg g f ltac:(tauto)) as [e He];
      congruence. }
  destruct Hreg as [Hg Hf].
  destruct (cb_log params msg g f Hg Hf log msg' Hrun) as (-> & _ & _).
  destruct (proximity_log_paired params msg g f) as (n & Hn & A & B & C & D).
  destruct (force_log_shape params msg g f) as [Lf Wf].
  exists (proximity_log params msg g f), (force_log params msg g f), n.
  unfold sample_log. rewrite !length_app, A, Lf. cbn [List.length].
  repeat split; auto. lia.
Qed.

Lemma message_order_and_counts_witness :
  exists lp lf n,
    Sample.log
    = lp ++ lf
      ++ [imu_event "l_gripper" "l_fingertip" (scaled_imu (imu Sample.msg))]
    /\ forallb is_proximity lp = true
    /\ List.length (filter is_distance lp) = n
    /\ List.length (filter is_cloud lp) = n
    /\ List.length lp = 2 * n
    /\ n <= 24
    /\ forallb is_wrench lf = true
    /\ List.length lf = 29
    /\ List.length Sample.log = 30 + 2 * n.
Proof.
  apply (message_order_and_counts Sample.params Sample.msg
           (scaled_msg Sample.msg) "l_gripper" "l_fingertip" Sample.log).
  vm_compute. reflexivity.
Defined.

(** ** The IMU step on its own *)

(** X11. For a registered gripper and fingertip [publish_imu] cannot
    fault, whatever the sample and the calibration table (it reads no
    calibration): it publishes exactly one message, on the [imu] topic of
    the front board, and leaves the message with both vectors scaled. For
    a pair that is not registered it faults with [KeyError] and publishes
    nothing. *)
Theorem publish_imu_total (params : pfs_params_t) (msg : PR2FingertipSensor)
    (g f : string) :
  (In g grippers /\ In f fingertips ->
   publish_imu (init params) msg g f
   = ([mkEvent ("/pfs/" ++ g ++ "/" ++ f ++ "/" ++ "pfs_a_front" ++ "/"
                ++ "imu")%string (MImu (scaled_imu (imu msg)))],
      Ok (scaled_msg msg)))
  /\ (~ (In g grippers /\ In f fingertips) ->
      publish_imu (init params) msg g f = ([], Raise KeyError)).
Proof.
  split.
  - intros [Hg Hf]. now rewrite publish_imu_log.
  - intros H. unfold publish_imu.
    now rewrite (pub_one_unregistered params g f _ _ H), bind_lift_Raise.
Qed.

(** ** One fingertip, one calibration *)

Section PerFingertip.

Context {A S : Type}.

Lemma for_each_ext (body body' : A -> S -> M S) (xs : list A) (s : S) :
  (forall x t, body x t = body' x t) ->
  for_each xs body s = for_each xs body' s.
Proof.
  intros H. revert s. induction xs as [ | x xs IH ]; intros s;
    [ reflexivity | ].
  cbn [for_each]. rewrite H. destruct (body' x s) as [l [s1 | e]];
    [ | reflexivity ].
  cbn [bind]. now rewrite IH.
Qed.

Lemma bind_ext {B C : Type} (m : M B) (k k' : B -> M C) :
  (forall b, k b = k' b) -> bind m k = bind m k'.
Proof.
  intros H. destruct m as [l [b | e]]; [ | reflexivity ].
  cbn [bind]. now rewrite H.
Qed.

End PerFingertip.

Lemma param_calibration (p1 p2 : pfs_params_t) (g f field : string)
    (k : nat) :
  calibration_of p1 g f = calibration_of p2 g f ->
  param p1 g f field k = param p2 g f field k.
Proof.
  unfold calibration_of, param. intros H.
  destruct (dict_get p1 g) as [ d1 | e1 ], (dict_get p2 g) as [ d2 | e2 ];
    cbn [rbind] in *.
  - destruct (dict_get d1 f) as [ c1 | ], (dict_get d2 f) as [ c2 | ];
      cbn [rbind]; congruence.
  - destruct (dict_get d1 f) as [ c1 | ]; cbn [rbind]; congruence.
  - destruct (dict_get d2 f) as [ c2 | ]; cbn [rbind]; congruence.
  - congruence.
Qed.

Lemma proximity_to_distance_calibration (p1 p2 : pfs_params_t) (raw : float)
    (g f part : string) (i : nat) :
  calibration_of p1 g f = calibration_of p2 g f ->
  proximity_to_distance (init p1) raw g f part i
  = proximity_to_distance (init p2) raw g f part i.
Proof.
  intros H. unfold proximity_to_distance.
  change (pfs_params (init p1)) with p1. change (pfs_params (init p2)) with p2.
  destruct (sensor_index part i) as [ index | ]; cbn [rbind];
    [ | reflexivity ].
  now rewrite !(param_calibration p1 p2 g f _ index H).
Qed.

(** X12. What the callback does for a gripper and fingertip depends on the
    calibration table through the entry of that fingertip alone: on two
    tables that agree on [pfs_params[gripper][fingertip]] (be it a
    calibration or a missing key) it publishes the same messages and ends
    the same way, whatever the tables hold for the other fingertips. *)
Theorem calibration_is_per_fingertip (p1 p2 : pfs_params_t)
    (msg : PR2FingertipSensor) (g f : string) :
  calibration_of p1 g f = calibration_of p2 g f ->
  cb (init p1) msg (g, f) = cb (init p2) msg (g, f).
Proof.
  intros H. unfold cb. cbn [fst snd].
  assert (HP : publish_proximity (init p1) msg g f
               = publish_proximity (init p2) msg g f).
  { unfold publish_proximity. f_equal.
    apply for_each_ext. intros part hd.
    apply for_each_ext. intros i hd'.
    unfold proximity_step.
    apply bind_ext. intros index. apply bind_ext. intros raw.
    now rewrite (proximity_to_distance_calibration p1 p2 raw g f part i H). }
  assert (HF : publish_force (init p1) msg g f
               = publish_force (init p2) msg g f).
  { unfold publish_force. f_equal.
    apply for_each_ext. intros part hd. f_equal.
    apply for_each_ext. intros i [hd' avg].
    unfold force_step.
    change (pfs_params (init p1)) with p1.
    change (pfs_params (init p2)) with p2.
    apply bind_ext. intros index.
    now rewrite !(param_calibration p1 p2 g f _ index H). }
  rewrite HP, HF. reflexivity.
Qed.

Lemma calibration_is_per_fingertip_witness :
  cb (init Sample.params) Sample.msg ("l_gripper", "l_fingertip")
  = cb (init [("l_gripper",
               [("l_fingertip", Sample.coefficients 0.01 5 500 3.7)])])
      Sample.msg ("l_gripper", "l_fingertip").
Proof.
  apply (calibration_is_per_fingertip Sample.params
           [("l_gripper",
             [("l_fingertip", Sample.coefficients 0.01 5 500 3.7)])]
           Sample.msg "l_gripper" "l_fingertip").
  reflexivity.
Defined.
